(** * Yr.no forecast sensor and Z-Wave device-config view

    A shallow embedding of [homeassistant/components/sensor/yr.py]
    (the [YrData.async_update] refresh-and-select routine) and of the
    device-config POST endpoint exercised by
    [tests/components/config/test_zwave.py].

    Python values are an inductive type, exceptions are an explicit result
    type, instants are integer counts of microseconds, scores are IEEE 754
    doubles, and the object state of [YrData] and of its [YrSensor] devices
    is passed explicitly. *)

From Stdlib Require Import ZArith Lia Sorted Permutation PrimFloat.
From Stdlib Require Import SpecFloat FloatOps.
From Stdlib Require Import Ascii String.
From stdpp Require Import base strings list gmap pretty.

Local Open Scope string_scope.
Local Open Scope list_scope.
Local Open Scope Z_scope.

(** ** Python values and exceptions *)

(** What [xmltodict.parse] returns (ordered dictionaries with string keys,
    lists, strings, [None]) together with the floats that [float(...)]
    produces.  A dictionary keeps its insertion order, as [OrderedDict]
    does. *)
#[warnings="-register-all"]
Inductive pyval : Type :=
| PyNone
| PyStr (s : string)
| PyFloat (f : float)
| PyList (l : list pyval)
| PyDict (d : list (string * pyval)).

Inductive exn : Type :=
| ExpatError | IndexError | KeyError | TypeError | ValueError
| TimeoutError | ClientError.

Inductive result (A : Type) : Type :=
| Ok (a : A)
| Raise (e : exn).
Arguments Ok {A} a.
Arguments Raise {A} e.

#[global] Instance result_ret : MRet result := fun A a => Ok a.
#[global] Instance result_bind : MBind result := fun A B k m =>
  match m with
  | Ok a => k a
  | Raise e => Raise e
  end.

(** Python's [==] on these values.  Floats compare as IEEE doubles, ordered
    dictionaries compare item by item in order. *)
Fixpoint py_eqb (a b : pyval) {struct a} : bool :=
  match a, b with
  | PyNone, PyNone => true
  | PyStr s, PyStr t => String.eqb s t
  | PyFloat f, PyFloat g => PrimFloat.eqb f g
  | PyList l, PyList m =>
      (fix go (l m : list pyval) {struct l} : bool :=
         match l, m with
         | [], [] => true
         | x :: l', y :: m' => py_eqb x y && go l' m'
         | _, _ => false
         end) l m
  | PyDict d, PyDict e =>
      (fix go (d e : list (string * pyval)) {struct d} : bool :=
         match d, e with
         | [], [] => true
         | (k, x) :: d', (k', y) :: e' =>
             String.eqb k k' && py_eqb x y && go d' e'
         | _, _ => false
         end) d e
  | _, _ => false
  end.

(** [a != b] *)
Definition py_ne (a b : pyval) : bool := negb (py_eqb a b).

(** Lookup of a key in an ordered dictionary. *)
Fixpoint dict_get (d : list (string * pyval)) (k : string) : option pyval :=
  match d with
  | [] => None
  | (k', v) :: d' => if String.eqb k k' then Some v else dict_get d' k
  end.

(** [v[k]] for a string key [k]. *)
Definition getitem (v : pyval) (k : string) : result pyval :=
  match v with
  | PyDict d =>
      match dict_get d k with
      | Some x => Ok x
      | None => Raise KeyError
      end
  | _ => Raise TypeError
  end.

(** The characters of a string, each as a one-character string. *)
Fixpoint str_chars (s : string) : list string :=
  match s with
  | EmptyString => []
  | String c s' => String c EmptyString :: str_chars s'
  end.

(** [v[0]] *)
Definition getitem0 (v : pyval) : result pyval :=
  match v with
  | PyList l =>
      match l with
      | x :: _ => Ok x
      | [] => Raise IndexError
      end
  | PyStr s =>
      match str_chars s with
      | c :: _ => Ok (PyStr c)
      | [] => Raise IndexError
      end
  | PyDict _ => Raise KeyError
  | _ => Raise TypeError
  end.

(** [k in v] for a string [k]: key membership in a dictionary, element
    membership in a list, substring test in a string. *)
Definition contains (k : string) (v : pyval) : result bool :=
  match v with
  | PyDict d => Ok (bool_decide (is_Some (dict_get d k)))
  | PyList l => Ok (existsb (py_eqb (PyStr k)) l)
  | PyStr s => Ok (bool_decide (is_Some (String.index 0 k s)))
  | _ => Raise TypeError
  end.

(** Iteration [for x in v]. *)
Definition py_iter (v : pyval) : result (list pyval) :=
  match v with
  | PyList l => Ok l
  | PyDict d => Ok (map (fun kv => PyStr (fst kv)) d)
  | PyStr s => Ok (map PyStr (str_chars s))
  | _ => Raise TypeError
  end.

(** ** Instants *)

(** Instants and durations are counted in microseconds, the resolution of
    Python's [datetime] and [timedelta].  They are unbounded integers: the
    [OverflowError] that Python raises when a sum leaves the years 1 to
    9999 is not part of the model. *)
Definition us_per_second : Z := 1000000.
Definition timedelta_minutes (m : Z) : Z := m * 60 * us_per_second.
Definition timedelta_hours (h : Z) : Z := h * 3600 * us_per_second.

(** [t.minute] of a UTC instant. *)
Definition minute_of (t : Z) : Z := (t / (60 * us_per_second)) mod 60.

(** Python's [float] as the distance scores have it: an IEEE 754 binary64
    number, with the operations the code applies to it.  Every operation
    rounds to nearest, ties to even. *)
Definition double : Type := spec_float.
Definition double_add (x y : double) : double := SFadd 53 1024 x y.
Definition double_abs (x : double) : double := SFabs x.
Definition double_lt (x y : double) : bool := SFltb x y.
Definition double_le (x y : double) : bool := SFleb x y.
Definition double_eq (x y : double) : bool := SFeqb x y.

(** [d.total_seconds()]: the count of microseconds divided by [10**6], a
    true division of two integers, which Python rounds once, to the
    nearest double. *)
Definition total_seconds (d : Z) : double :=
  match d with
  | Z0 => S754_zero false
  | Zpos p =>
      SFdiv 53 1024 (S754_finite false p 0) (S754_finite false 1000000 0)
  | Zneg p =>
      SFdiv 53 1024 (S754_finite true p 0) (S754_finite false 1000000 0)
  end.

(** A parsed timestamp either carries a UTC offset ([Aware], normalised to
    UTC) or not ([Naive]).  [dt_util.utcnow()] is always aware, and Python
    refuses to compare or subtract an aware and a naive datetime. *)
Inductive datetime : Type :=
| Aware (t : Z)
| Naive (t : Z).

(** [now >= d] where [d] is what [parse_datetime] returned. *)
Definition now_ge (now : Z) (d : option datetime) : result bool :=
  match d with
  | Some (Aware t) => Ok (t <=? now)
  | _ => Raise TypeError
  end.

(** [(d - forecast_time).total_seconds()] *)
Definition seconds_from (d : option datetime) (forecast_time : Z)
    : result double :=
  match d with
  | Some (Aware t) => Ok (total_seconds (t - forecast_time))
  | _ => Raise TypeError
  end.

(** ** The collaborators of [yr.py]

    [xmltodict.parse], [dt_util.parse_datetime] and the builtin [float] are
    not part of the module; the development is parametric in them.  Each
    may raise. *)
Record host : Type := {
  xmltodict_parse : string -> result pyval;
  parse_datetime : pyval -> result (option datetime);
  py_float : pyval -> result float
}.

(** ** Sensors *)

(** [SENSOR_TYPES]: sensor type, display name, unit. *)
Definition SENSOR_TYPES : list (string * (string * option string)) :=
  [ ("symbol", ("Symbol", None));
    ("precipitation", ("Precipitation", Some "mm"));
    ("temperature", ("Temperature", Some "°C"));
    ("windSpeed", ("Wind speed", Some "m/s"));
    ("windGust", ("Wind gust", Some "m/s"));
    ("pressure", ("Pressure", Some "hPa"));
    ("windDirection", ("Wind direction", Some "°"));
    ("humidity", ("Humidity", Some "%"));
    ("fog", ("Fog", Some "%"));
    ("cloudiness", ("Cloudiness", Some "%"));
    ("lowClouds", ("Low clouds", Some "%"));
    ("mediumClouds", ("Medium clouds", Some "%"));
    ("highClouds", ("High clouds", Some "%"));
    ("dewpointTemperature", ("Dewpoint temperature", Some "°C")) ].

Definition sensor_type_known (ty : string) : bool :=
  existsb (fun e => String.eqb ty (fst e)) SENSOR_TYPES.

Record YrSensor : Type := {
  client_name : string;
  _name : string;
  type : string;
  _state : pyval;
  _unit_of_measurement : option string
}.

(** [YrSensor.__init__]: [SENSOR_TYPES[sensor_type]] raises [KeyError] for
    a type outside the table. *)
Definition YrSensor_init (name sensor_type : string) : result YrSensor :=
  match find (fun e => String.eqb sensor_type (fst e)) SENSOR_TYPES with
  | Some (_, (n, u)) =>
      Ok {| client_name := name; _name := n; type := sensor_type;
            _state := PyNone; _unit_of_measurement := u |}
  | None => Raise KeyError
  end.

Definition set_state (dev : YrSensor) (v : pyval) : YrSensor :=
  {| client_name := client_name dev; _name := _name dev; type := type dev;
     _state := v; _unit_of_measurement := _unit_of_measurement dev |}.

(** ** [YrData] *)

Record YrData : Type := {
  _nextrun : option datetime;
  _forecast : Z;
  devices : list YrSensor;
  data : pyval
}.

(** [YrData.__init__] *)
Definition YrData_init (forecast : Z) (devs : list YrSensor) : YrData :=
  {| _nextrun := None; _forecast := forecast; devices := devs;
     data := PyDict [] |}.

Definition set_nextrun (s : YrData) (n : option datetime) : YrData :=
  {| _nextrun := n; _forecast := _forecast s; devices := devices s;
     data := data s |}.
Definition set_data (s : YrData) (d : pyval) : YrData :=
  {| _nextrun := _nextrun s; _forecast := _forecast s; devices := devices s;
     data := d |}.
Definition set_devices (s : YrData) (ds : list YrSensor) : YrData :=
  {| _nextrun := _nextrun s; _forecast := _forecast s; devices := ds;
     data := data s |}.

(** The HTTP response of the forecast API. *)
Record response : Type := {
  status : Z;
  url : string;
  text : result string
}.

(** What one call of [async_update] observes of the outside world: the
    clock at each of its three reads and the outcome of the GET. *)
Record env : Type := {
  utcnow_gate : Z;
  http_get : result response;
  utcnow_retry : Z;
  utcnow_now : Z
}.

(** What one call of [async_update] leaves behind: the object state, the
    one-shot timers armed through [async_track_point_in_utc_time], the
    devices (by position in [devices]) whose [async_update_ha_state] was
    put on the task list, and the exception that escaped, if any. *)
Record outcome : Type := {
  self : YrData;
  timers : list Z;
  tasks : list nat;
  raised : option exn
}.

(** ** [YrData.async_update] *)

Section Yr.
Variable H : host.

(** [try_again]: forget [_nextrun] and arm a one-shot timer 15 minutes
    from now, but only when that instant's minute is at least 15. *)
Definition try_again (s : YrData) (utcnow : Z) : YrData * list Z :=
  let nxt := utcnow + timedelta_minutes 15 in
  (set_nextrun s None, if 15 <=? minute_of nxt then [nxt] else []).

Definition retry (s : YrData) (e : env) : outcome :=
  let '(s', tm) := try_again s (utcnow_retry e) in
  {| self := s'; timers := tm; tasks := []; raised := None |}.

Definition propagate (s : YrData) (x : exn) : outcome :=
  {| self := s; timers := []; tasks := []; raised := Some x |}.

(** [except (asyncio.TimeoutError, aiohttp.ClientError)] *)
Definition caught_fetch (x : exn) : bool :=
  match x with
  | TimeoutError | ClientError => true
  | _ => false
  end.

(** [except (ExpatError, IndexError)] *)
Definition caught_parse (x : exn) : bool :=
  match x with
  | ExpatError | IndexError => true
  | _ => false
  end.

(** [self._nextrun is None or dt_util.utcnow() >= self._nextrun] *)
Definition needs_fetch (s : YrData) (e : env) : result bool :=
  match _nextrun s with
  | None => Ok true
  | Some (Aware t) => Ok (t <=? utcnow_gate e)
  | Some (Naive _) => Raise TypeError
  end.

(** The body of the first [try]: the GET, the status test and the read of
    the body.  [Ok None] is the early [try_again] on a status other than
    200. *)
Definition fetch_text (e : env) : result (option string) :=
  resp ← http_get e;
  if status resp =? 200 then t ← text resp; mret (Some t) else mret None.

(** Lines 193 to 196: the model run's [@nextrun], read from the document
    already stored in [self.data]. *)
Definition extract_nextrun (wd : pyval) : result (option datetime) :=
  meta ← getitem wd "meta";
  model ← getitem meta "model";
  has ← contains "@nextrun" model;
  model' ← (if (has : bool) then mret model else getitem0 model);
  v ← getitem model' "@nextrun";
  parse_datetime H v.

(** The body of the second [try].  [self.data] is assigned on its first
    line, before the metadata is read. *)
Definition parse_response (s : YrData) (txt : string) : YrData * result unit :=
  match doc ← xmltodict_parse H txt; getitem doc "weatherdata" with
  | Raise x => (s, Raise x)
  | Ok wd =>
      let s1 := set_data s wd in
      match extract_nextrun wd with
      | Raise x => (s1, Raise x)
      | Ok n => (set_nextrun s1 n, Ok tt)
      end
  end.

Inductive refreshed : Type :=
| Proceed (s : YrData)
| Return (o : outcome).

(** Lines 176 to 199. *)
Definition refresh (s : YrData) (e : env) : refreshed :=
  match needs_fetch s e with
  | Raise x => Return (propagate s x)
  | Ok false => Proceed s
  | Ok true =>
      match fetch_text e with
      | Raise x =>
          if caught_fetch x then Return (retry s e)
          else Return (propagate s x)
      | Ok None => Return (retry s e)
      | Ok (Some txt) =>
          match parse_response s txt with
          | (s', Raise x) =>
              if caught_parse x then Return (retry s' e)
              else Return (propagate s' x)
          | (s', Ok _) => Proceed s'
          end
      end
  end.

(** [self.data['product']['time']], iterated. *)
Definition time_entries (s : YrData) : result (list pyval) :=
  product ← getitem (data s) "product";
  tm ← getitem product "time";
  py_iter tm.

(** [average_dist] of lines 220 and 221. *)
Definition average_dist (valid_from valid_to : option datetime)
    (forecast_time : Z) : result double :=
  d_to ← seconds_from valid_to forecast_time;
  d_from ← seconds_from valid_from forecast_time;
  mret (double_add (double_abs d_to) (double_abs d_from)).

(** The loop of lines 212 to 223, building [ordered_entries] in document
    order. *)
Fixpoint collect (now forecast_time : Z) (entries : list pyval)
    : result (list (double * pyval)) :=
  match entries with
  | [] => mret []
  | time_entry :: rest =>
      f ← getitem time_entry "@from";
      valid_from ← parse_datetime H f;
      t ← getitem time_entry "@to";
      valid_to ← parse_datetime H t;
      passed ← now_ge now valid_to;
      if (passed : bool) then collect now forecast_time rest
      else
        dist ← average_dist valid_from valid_to forecast_time;
        tl ← collect now forecast_time rest;
        mret ((dist, time_entry) :: tl)
  end.

(** [list.sort(key=lambda item: item[0])]: ascending by key and stable.
    The keys are compared with [<] only, as Python's sort does: an element
    stays behind those whose key is smaller and is put in front of the
    first one whose key is not. *)
Fixpoint insert_by_key (x : double * pyval) (l : list (double * pyval))
    : list (double * pyval) :=
  match l with
  | [] => [x]
  | y :: l' =>
      if double_lt (fst y) (fst x) then y :: insert_by_key x l'
      else x :: y :: l'
  end.

Definition sort_by_key (l : list (double * pyval)) : list (double * pyval) :=
  foldr insert_by_key [] l.

(** [now + timedelta(hours=self._forecast)], line 202. *)
Definition forecast_time (s : YrData) (now : Z) : Z :=
  now + timedelta_hours (_forecast s).

(** [ordered_entries] as it stands after line 225. *)
Definition ordered_entries (s : YrData) (now : Z) : result (list (double * pyval)) :=
  entries ← time_entries s;
  retained ← collect now (forecast_time s now) entries;
  mret (sort_by_key retained).

Definition type_in (ty : string) (l : list string) : bool :=
  existsb (String.eqb ty) l.

(** Lines 239 to 252: the [if]/[elif] chain on [dev.type]. *)
Definition extract (ty : string) (loc_data : pyval) : result pyval :=
  if String.eqb ty "precipitation" then
    v ← getitem loc_data ty; getitem v "@value"
  else if String.eqb ty "symbol" then
    v ← getitem loc_data ty; getitem v "@number"
  else if type_in ty ["temperature"; "pressure"; "humidity";
                      "dewpointTemperature"] then
    v ← getitem loc_data ty; getitem v "@value"
  else if type_in ty ["windSpeed"; "windGust"] then
    v ← getitem loc_data ty; getitem v "@mps"
  else if String.eqb ty "windDirection" then
    v ← getitem loc_data ty; d ← getitem v "@deg";
    f ← py_float H d; mret (PyFloat f)
  else if type_in ty ["fog"; "cloudiness"; "lowClouds"; "mediumClouds";
                      "highClouds"] then
    v ← getitem loc_data ty; getitem v "@percent"
  else mret PyNone.

(** The inner loop of lines 231 to 254: [new_state] for one device. *)
Fixpoint new_state (ty : string) (ordered : list (double * pyval)) : result pyval :=
  match ordered with
  | [] => mret PyNone
  | (_, selected_time_entry) :: rest =>
      loc_data ← getitem selected_time_entry "location";
      has ← contains ty loc_data;
      if (has : bool) then extract ty loc_data
      else new_state ty rest
  end.

(** The loop over [self.devices], from position [i] on.  It returns the
    devices as mutated so far, the task list, and the exception that
    interrupted it, if any. *)
Fixpoint update_devices (ordered : list (double * pyval)) (devs : list YrSensor)
    (i : nat) : list YrSensor * list nat * option exn :=
  match devs with
  | [] => ([], [], None)
  | dev :: rest =>
      match new_state (type dev) ordered with
      | Raise x => (dev :: rest, [], Some x)
      | Ok v =>
          let '(rest', tks, r) := update_devices ordered rest (S i) in
          if py_ne v (_state dev)
          then (set_state dev v :: rest', i :: tks, r)
          else (dev :: rest', tks, r)
      end
  end.

(** Lines 201 to 262. *)
Definition select_stage (s : YrData) (now : Z) : outcome :=
  match ordered_entries s now with
  | Raise x => propagate s x
  | Ok [] => {| self := s; timers := []; tasks := []; raised := None |}
  | Ok ordered =>
      let '(devs, tks, r) := update_devices ordered (devices s) 0 in
      {| self := set_devices s devs; timers := []; tasks := tks; raised := r |}
  end.

Definition async_update (s : YrData) (e : env) : outcome :=
  match refresh s e with
  | Return o => o
  | Proceed s' => select_stage s' (utcnow_now e)
  end.

(** The validity bounds of a time entry, as the loop reads them. *)
Definition valid_from_of (time_entry : pyval) : result (option datetime) :=
  f ← getitem time_entry "@from"; parse_datetime H f.
Definition valid_to_of (time_entry : pyval) : result (option datetime) :=
  t ← getitem time_entry "@to"; parse_datetime H t.

(** The time entry at which the inner loop of [new_state] reaches its
    [break], or [None] when the loop runs to its end. *)
Fixpoint selected_entry (ty : string) (ordered : list (double * pyval))
    : result (option pyval) :=
  match ordered with
  | [] => mret None
  | (_, selected_time_entry) :: rest =>
      loc_data ← getitem selected_time_entry "location";
      has ← contains ty loc_data;
      if (has : bool) then mret (Some selected_time_entry)
      else selected_entry ty rest
  end.

End Yr.

(** A key that [xmltodict] made from an XML attribute. *)
Definition is_attribute (k : string) : bool :=
  match k with
  | String c _ => Ascii.eqb c "@"
  | EmptyString => false
  end.

(** The values [xmltodict.parse] builds (version 0.11.0, as [yr.py] calls
    it).  The text of an element is stripped and an empty text becomes
    [None], so a string that stands for an element is never empty; a list
    is made only when an element meets a second sibling of its name, so a
    list has at least two items; an attribute is a string, possibly empty;
    floats do not occur. *)
Fixpoint xml_value (v : pyval) : bool :=
  match v with
  | PyNone => true
  | PyStr s => negb (String.eqb s "")
  | PyFloat _ => false
  | PyList l => (2 <=? length l)%nat && forallb xml_value l
  | PyDict d =>
      forallb (λ kv, if is_attribute (fst kv)
                     then match snd kv with PyStr _ => true | _ => false end
                     else xml_value (snd kv)) d
  end.

(** The collaborators as they are when [yr.py] runs: the parser returns
    values of that shape, and [dt_util.parse_datetime], which matches a
    regular expression and builds a [datetime], raises neither of the
    errors the second [try] catches. *)
Definition deployed (H : host) : Prop :=
  (∀ txt doc, xmltodict_parse H txt = Ok doc → xml_value doc = true) ∧
  (∀ v x, parse_datetime H v = Raise x → caught_parse x = false).

(** The three ways a refresh ends in [try_again]: the GET or the read of
    the body raises a caught error, the status is not 200, or the second
    [try] raises a caught error. *)
Inductive failure (H : host) (s : YrData) (e : env) : Prop :=
| failure_fetch x :
    needs_fetch s e = Ok true → fetch_text e = Raise x →
    caught_fetch x = true → failure H s e
| failure_status :
    needs_fetch s e = Ok true → fetch_text e = Ok None → failure H s e
| failure_parse txt x :
    needs_fetch s e = Ok true → fetch_text e = Ok (Some txt) →
    snd (parse_response H s txt) = Raise x →
    caught_parse x = true → failure H s e.

(** The same call with another reading of the clock in [try_again]. *)
Definition at_retry_time (e : env) (t : Z) : env :=
  {| utcnow_gate := utcnow_gate e; http_get := http_get e;
     utcnow_retry := t; utcnow_now := utcnow_now e |}.

(** An entry of [ordered_entries] that the inner loop steps over for a
    device of type [ty]: its [location] is there and lacks [ty]. *)
Definition lacks (ty : string) (x : double * pyval) : bool :=
  match getitem (snd x) "location" with
  | Ok loc_data =>
      match contains ty loc_data with
      | Ok has => negb has
      | Raise _ => false
      end
  | Raise _ => false
  end.

(** The attribute each sensor type other than [windDirection] is read
    from, as the specification lists it. *)
Definition source_field (ty : string) : string :=
  if type_in ty ["precipitation"; "temperature"; "pressure"; "humidity";
                 "dewpointTemperature"] then "@value"
  else if String.eqb ty "symbol" then "@number"
  else if type_in ty ["windSpeed"; "windGust"] then "@mps"
  else "@percent".

(** What the loop of lines 212 to 223 guarantees of a pair it appends: both
    bounds parsed to aware instants, the window has not passed, and the
    score is the sum of the two absolute distances to [forecast_time]. *)
Definition scored (H : host) (now forecast_time : Z) (x : double * pyval) : Prop :=
  ∃ t_from t_to,
    valid_from_of H (snd x) = Ok (Some (Aware t_from)) ∧
    valid_to_of H (snd x) = Ok (Some (Aware t_to)) ∧
    now < t_to ∧
    fst x = double_add (double_abs (total_seconds (t_to - forecast_time)))
                       (double_abs (total_seconds (t_from - forecast_time))).

(** The order [sort_by_key] sorts by: [<=] on doubles. *)
Definition score_le (a b : double * pyval) : Prop :=
  double_le (fst a) (fst b) = true.

(** Membership of a score in the class of [q]: [==] on doubles. *)
Definition same_score (q : double) (x : double * pyval) : bool :=
  double_eq (fst x) q.

(** The doubles other than NaN. *)
Definition is_number (x : double) : Prop := x ≠ S754_nan.

(** The place of a double in the order of the numbers: the sign class
    first, then exponent and mantissa, mirrored for the negative ones.  The
    two zeros share a place. *)
Definition double_key (x : double) : Z * Z * Z :=
  match x with
  | S754_zero _ => (0, 0, 0)
  | S754_infinity s => (if s then -2 else 2, 0, 0)
  | S754_nan => (0, 0, 0)
  | S754_finite s m e => if s then (-1, - e, Zneg m) else (1, e, Zpos m)
  end.

Definition key_le (a b : Z * Z * Z) : Prop :=
  a.1.1 < b.1.1 ∨
  (a.1.1 = b.1.1 ∧ (a.1.2 < b.1.2 ∨ (a.1.2 = b.1.2 ∧ a.2 ≤ b.2))).
Definition key_lt (a b : Z * Z * Z) : Prop :=
  a.1.1 < b.1.1 ∨
  (a.1.1 = b.1.1 ∧ (a.1.2 < b.1.2 ∨ (a.1.2 = b.1.2 ∧ a.2 < b.2))).

(** ** A concrete host, for running the model

    Timestamps are written as clock readings ["HH:MM"] of one UTC day, the
    XML parser and [float] are given by finite tables: a text outside the
    table is not well-formed XML, a string outside the table is not a
    number. *)

Definition digit (c : Ascii.ascii) : option Z :=
  let n := Z.of_nat (nat_of_ascii c) - 48 in
  if (0 <=? n) && (n <=? 9) then Some n else None.

Definition clock (h m : Z) : Z := (h * 60 + m) * 60 * us_per_second.

Definition clock_of_string (s : string) : option Z :=
  match s with
  | String a (String b (String sep (String c (String d EmptyString)))) =>
      if Ascii.eqb sep ":" then
        h1 ← digit a; h2 ← digit b; m1 ← digit c; m2 ← digit d;
        Some (clock (h1 * 10 + h2) (m1 * 10 + m2))
      else None
  | _ => None
  end.

Fixpoint table_get {A : Type} (tbl : list (string * A)) (k : string) : option A :=
  match tbl with
  | [] => None
  | (k', v) :: tbl' => if String.eqb k k' then Some v else table_get tbl' k
  end.

Definition table_host (docs : list (string * pyval))
    (floats : list (string * float)) : host :=
  {| xmltodict_parse := fun txt =>
       match table_get docs txt with
       | Some d => Ok d
       | None => Raise ExpatError
       end;
     parse_datetime := fun v =>
       match v with
       | PyStr s => Ok (Aware <$> clock_of_string s)
       | _ => Raise TypeError
       end;
     py_float := fun v =>
       match v with
       | PyFloat f => Ok f
       | PyStr s =>
           match table_get floats s with
           | Some f => Ok f
           | None => Raise ValueError
           end
       | _ => Raise TypeError
       end |}.

(** One [<time>] element: its bounds and, per weather variable, the
    attributes of the variable's element. *)
Definition time_entry (from to : string)
    (vars : list (string * list (string * string))) : pyval :=
  PyDict [("@from", PyStr from); ("@to", PyStr to);
          ("location",
           PyDict (map (λ v, (v.1, PyDict (map (λ a, (a.1, PyStr a.2)) v.2)))
                       vars))].

Definition weatherdata (model : pyval) (entries : list pyval) : pyval :=
  PyDict [("meta", PyDict [("model", model)]);
          ("product", PyDict [("time", PyList entries)])].

Definition model_run (nextrun : string) : pyval :=
  PyDict [("@nextrun", PyStr nextrun)].

Definition sensor (ty : string) (st : pyval) : YrSensor :=
  {| client_name := "yr"; _name := ty; type := ty; _state := st;
     _unit_of_measurement := None |}.

(** Four windows, out of score order: one that has passed at 09:30, a later
    one, and two over the same hour carrying different variables. *)
Definition entry_passed : pyval :=
  time_entry "08:00" "09:00" [("temperature", [("@value", "5")])].
Definition entry_later : pyval :=
  time_entry "10:00" "11:00" [("temperature", [("@value", "8")])].
Definition entry_temp : pyval :=
  time_entry "09:00" "10:00" [("temperature", [("@value", "7")])].
Definition entry_wind : pyval :=
  time_entry "09:00" "10:00" [("windDirection", [("@deg", "180.5")])].

Definition morning : pyval :=
  weatherdata (model_run "12:00")
    [entry_passed; entry_later; entry_temp; entry_wind].

(** A document whose [model] is an empty list: reading [model[0]] raises
    [IndexError]. *)
Definition no_model : pyval := weatherdata (PyList []) [entry_later].

Definition demo_host : host :=
  table_host [("<morning/>", PyDict [("weatherdata", morning)]);
              ("<no_model/>", PyDict [("weatherdata", no_model)])]
             [("180.5", 180.5%float)].

Definition ok_response (txt : string) : result response :=
  Ok {| status := 200; url := "https://api.met.no/"; text := Ok txt |}.

(** A [YrData] that holds [morning] and is not due for a fetch before
    12:00, with three sensors. *)
Definition loaded : YrData :=
  {| _nextrun := Some (Aware (clock 12 0)); _forecast := 0;
     devices := [sensor "temperature" (PyStr "7");
                 sensor "windDirection" PyNone;
                 sensor "humidity" (PyStr "50")];
     data := morning |}.

(** The same object once its [_nextrun] has been forgotten. *)
Definition due : YrData := set_nextrun loaded None.

(** A call at the given minute past nine, and one at 11:30. *)
Definition at_nine (m : Z) (get : result response) : env :=
  {| utcnow_gate := clock 9 m; http_get := get;
     utcnow_retry := clock 9 m; utcnow_now := clock 9 m |}.
Definition at_half_past_eleven : env :=
  {| utcnow_gate := clock 11 30; http_get := Raise ClientError;
     utcnow_retry := clock 11 30; utcnow_now := clock 11 30 |}.

(** [ordered_entries] of [loaded] at 09:30. *)
Definition morning_ordered : list (double * pyval) :=
  Eval vm_compute in
    match ordered_entries demo_host loaded (clock 9 30) with
    | Ok l => l
    | Raise _ => []
    end.

(** ** The Z-Wave device-config view *)

Module ZWave.

(** The values a device option can take in a JSON body. *)
Inductive jval : Type :=
| JBool (b : bool)
| JInt (n : Z)
| JStr (s : string).

(** The reply of the view: the HTTP status and, where the specification
    fixes it, the JSON object sent back. *)
Record reply : Type := {
  code : Z;
  payload : option (list (string * jval))
}.

Definition bad_request : reply := {| code := 400; payload := None |}.
Definition result_ok : reply :=
  {| code := 200; payload := Some [("result", JStr "ok")] |}.

(** The fixed schema: [ignored] is a boolean, [polling_intensity] an
    integer, and no other option exists. *)
Definition valid_option (k : string) (v : jval) : bool :=
  match v with
  | JBool _ => String.eqb k "ignored"
  | JInt _ => String.eqb k "polling_intensity"
  | JStr _ => false
  end.

Definition valid_options (opts : gmap string jval) : bool :=
  bool_decide (map_Forall (λ k v, valid_option k v = true) opts).

Section View.
(** Which entity ids the host knows. *)
Variable known : string → bool.

(** Modelled from the spec: the handler of
    [POST /api/config/zwave/device_config/{entity_id}], which lives in
    [homeassistant/components/config/zwave.py] and is not among the
    sources; only its test is.  The body is [None] when it is not JSON.
    The result is the reply and the list of mappings handed to the
    injected write, given the mapping the injected read returns. *)
Definition post (stored : gmap string (gmap string jval)) (entity_id : string)
    (body : option (gmap string jval))
    : reply * list (gmap string (gmap string jval)) :=
  if negb (known entity_id) then (bad_request, [])
  else
    match body with
    | None => (bad_request, [])
    | Some opts =>
        if negb (valid_options opts) then (bad_request, [])
        else
          let current := default ∅ (stored !! entity_id) in
          (result_ok, [<[entity_id := opts ∪ current]> stored])
    end.

End View.

(** The stored mapping of [test_update_device_config]. *)
Definition orig_data : gmap string (gmap string jval) :=
  <["hello.beer" := {["ignored" := JBool true]}]>
    (<["other.entity" := {["polling_intensity" := JInt 2]}]> ∅).

End ZWave.

(** ** [async_setup_platform] *)

(** [random.randrange(start, stop)], as a function of the integer [r] the
    generator draws: a value from [start] up to, not including, [stop]. *)
Definition randrange (start stop r : Z) : Z := start + r mod (stop - start).

(** The part of [hass.config] the platform reads. *)
Record hass_config : Type := {
  hass_elevation : option Z;
  hass_latitude : option float;
  hass_longitude : option float
}.

(** The platform configuration after [PLATFORM_SCHEMA]: the optional keys
    may be absent, [forecast], [monitored_conditions] and [name] have
    defaults. *)
Record platform_config : Type := {
  conf_elevation : option Z;
  conf_forecast : Z;
  conf_latitude : option float;
  conf_longitude : option float;
  conf_monitored_conditions : list string;
  conf_name : string
}.

(** How a call of [async_setup_platform] ends: it returns [False] after
    logging an error, an exception escapes before the first update, or the
    devices are handed to [async_add_devices], the hourly callback is
    registered at a minute and second, and the first update has run. *)
Inductive setup_outcome : Type :=
| SetupFalse
| SetupRaise (x : exn)
| SetupDone (coordinates : list (string * string)) (added : list YrSensor)
    (minute second : Z) (first : outcome).

(** The loop of lines 88 to 90. *)
Fixpoint make_devices (name : string) (sensor_types : list string)
    : result (list YrSensor) :=
  match sensor_types with
  | [] => mret []
  | sensor_type :: rest =>
      dev ← YrSensor_init name sensor_type;
      devs ← make_devices name rest;
      mret (dev :: devs)
  end.

Section Setup.
Variable H : host.
(** [str] of a float. *)
Variable str_float : float → string.

(** [r_minute] and [r_second] are the two draws of the random generator,
    [e] is what the first update observes. *)
Definition async_setup_platform (hass : hass_config) (config : platform_config)
    (r_minute r_second : Z) (e : env) : setup_outcome :=
  let elevation :=
    default (default 0 (hass_elevation hass)) (conf_elevation config) in
  let forecast := conf_forecast config in
  let latitude := from_option Some (hass_latitude hass) (conf_latitude config) in
  let longitude :=
    from_option Some (hass_longitude hass) (conf_longitude config) in
  let name := conf_name config in
  match latitude, longitude with
  | Some lat, Some lon =>
      let coordinates :=
        [("lat", str_float lat); ("lon", str_float lon);
         ("msl", pretty elevation)] in
      match make_devices name (conf_monitored_conditions config) with
      | Raise x => SetupRaise x
      | Ok dev =>
          let weather := YrData_init forecast dev in
          SetupDone coordinates dev
            (randrange 1 10 r_minute) (randrange 0 59 r_second)
            (async_update H weather e)
      end
  | _, _ => SetupFalse
  end.

End Setup.

(** ** Further notions the properties are stated with *)

(** Two records of the same sensor: they differ in [_state] at most. *)
Definition same_sensor (d d' : YrSensor) : Prop := d' = set_state d (_state d').

(** A time entry whose [location] has the variable [ty]. *)
Definition has_variable (ty : string) (time_entry : pyval) : Prop :=
  ∃ loc_data,
    getitem time_entry "location" = Ok loc_data ∧
    contains ty loc_data = Ok true.

(** A time entry whose two bounds can be read and parsed without an
    exception, whatever the parser made of them. *)
Definition readable_bounds (H : host) (time_entry : pyval) : Prop :=
  ∃ valid_from valid_to,
    valid_from_of H time_entry = Ok valid_from ∧
    valid_to_of H time_entry = Ok valid_to.

(** A time entry whose two bounds parse to aware instants. *)
Definition aware_bounds (H : host) (time_entry : pyval) : Prop :=
  ∃ t_from t_to,
    valid_from_of H time_entry = Ok (Some (Aware t_from)) ∧
    valid_to_of H time_entry = Ok (Some (Aware t_to)).

(** The two envs read the same clock at the gate and at the selection. *)
Definition same_clock (e e' : env) : Prop :=
  utcnow_gate e' = utcnow_gate e ∧ utcnow_now e' = utcnow_now e.

(** ** A forecast offset and instants between the seconds *)

(** [loaded] asked for the forecast one hour ahead. *)
Definition ahead : YrData :=
  {| _nextrun := Some (Aware (clock 12 0)); _forecast := 1;
     devices := devices loaded; data := morning |}.

(** Three microseconds past 08:30; the target instant of [ahead] is then
    three microseconds past 09:30. *)
Definition half_past_eight : Z := clock 8 30 + 3.

(** [ordered_entries] of [ahead] at that instant. *)
Definition ahead_ordered : list (double * pyval) :=
  Eval vm_compute in
    match ordered_entries demo_host ahead half_past_eight with
    | Ok l => l
    | Raise _ => []
    end.

(** Two windows at the same exact distance from three microseconds past
    09:30: two hours from 10:00, and the single instant 11:00. *)
Definition entry_two_hours : pyval :=
  time_entry "10:00" "12:00" [("symbol", [("@number", "1")])].
Definition entry_at_eleven : pyval :=
  time_entry "11:00" "11:00" [("symbol", [("@number", "2")])].
Definition late_morning : pyval :=
  weatherdata (model_run "12:00") [entry_two_hours; entry_at_eleven].

(** ** More documents, for running the further properties *)

(** A body without a [weatherdata] root. *)
Definition error_body : list (string * pyval) := [("error", PyStr "busy")].

(** Two model runs in one document: [model] is a list. *)
Definition two_models : pyval :=
  weatherdata (PyList [model_run "12:00"; model_run "18:00"])
    [entry_temp; entry_wind].

(** A window whose [@to] is not a timestamp. *)
Definition entry_unbounded : pyval :=
  time_entry "09:00" "soon" [("temperature", [("@value", "7")])].
Definition morning_unbounded : pyval :=
  weatherdata (model_run "12:00") [entry_passed; entry_unbounded].

(** A document with one [<time>] element: [time] is that element, not a
    list. *)
Definition single_window : pyval :=
  PyDict [("meta", PyDict [("model", model_run "12:00")]);
          ("product", PyDict [("time", entry_temp)])].

(** A wind direction that is not a number. *)
Definition entry_wind_north : pyval :=
  time_entry "09:00" "10:00" [("windDirection", [("@deg", "north")])].
Definition morning_north : pyval :=
  weatherdata (model_run "12:00") [entry_temp; entry_wind_north].

(** [ordered_entries] of [loaded_with morning_north] at 09:30. *)
Definition north_ordered (H : host) : list (double * pyval) :=
  match ordered_entries H (set_data loaded morning_north) (clock 9 30) with
  | Ok l => l
  | Raise _ => []
  end.

Definition more_host : host :=
  table_host [("<morning/>", PyDict [("weatherdata", morning)]);
              ("<error/>", PyDict error_body);
              ("<two_models/>", PyDict [("weatherdata", two_models)])]
             [("180.5", 180.5%float)].

(** [loaded] with another document and with the temperature sensor
    showing 0. *)
Definition loaded_with (doc : pyval) : YrData :=
  {| _nextrun := Some (Aware (clock 12 0)); _forecast := 0;
     devices := [sensor "temperature" (PyStr "0");
                 sensor "windDirection" PyNone;
                 sensor "humidity" (PyStr "50")];
     data := doc |}.

Definition home : hass_config :=
  {| hass_elevation := Some 12; hass_latitude := Some 59.875%float;
     hass_longitude := Some 10.75%float |}.

Definition yr_platform (conditions : list string) : platform_config :=
  {| conf_elevation := None; conf_forecast := 0; conf_latitude := None;
     conf_longitude := None; conf_monitored_conditions := conditions;
     conf_name := "yr" |}.

(** A stand-in for [str] of a float: the two coordinates of [home]. *)
Definition demo_str_float (f : float) : string :=
  if PrimFloat.eqb f 59.875%float then "59.875" else "10.75".

(** ** Properties of doubles *)

Section Doubles.

Ltac compare_cases :=
  repeat match goal with
  | |- context [Z.compare ?x ?y] => destruct (Z.compare_spec x y)
  | |- context [Pos.compare_cont Eq ?x ?y] =>
      change (Pos.compare_cont Eq x y) with (Pos.compare x y);
      destruct (Pos.compare_spec x y)
  end.

Lemma double_le_key a b :
  is_number a → is_number b →
  (double_le a b = true ↔ key_le (double_key a) (double_key b)).
Proof.
  unfold is_number, double_le, SFleb, SFcompare, key_le, double_key.
  intros Ha Hb.
  destruct a as [[|]|[|]| |[|] m e], b as [[|]|[|]| |[|] m' e'];
    try congruence; cbn [fst snd]; compare_cases; cbn [CompOpp];
    split; intros; try discriminate; try reflexivity; try lia.
Qed.

Lemma double_lt_key a b :
  is_number a → is_number b →
  (double_lt a b = true ↔ key_lt (double_key a) (double_key b)).
Proof.
  unfold is_number, double_lt, SFltb, SFcompare, key_lt, double_key.
  intros Ha Hb.
  destruct a as [[|]|[|]| |[|] m e], b as [[|]|[|]| |[|] m' e'];
    try congruence; cbn [fst snd]; compare_cases; cbn [CompOpp];
    split; intros; try discriminate; try reflexivity; try lia.
Qed.

Lemma double_eq_key a b :
  double_eq a b = true ↔
  is_number a ∧ is_number b ∧ double_key a = double_key b.
Proof.
  unfold is_number, double_eq, SFeqb, SFcompare, double_key.
  destruct a as [[|]|[|]| |[|] m e], b as [[|]|[|]| |[|] m' e'];
    compare_cases; cbn [CompOpp]; split; try discriminate; try tauto;
    try (intros _; repeat split; try discriminate; f_equal; try f_equal; lia);
    try (intros (_ & _ & Hk); congruence);
    try (intros (_ & _ & Hk); injection Hk; intros; lia).
Qed.

Lemma double_le_number a b :
  double_le a b = true → is_number a ∧ is_number b.
Proof.
  unfold double_le, SFleb, is_number.
  destruct a, b; cbn; try discriminate; split; discriminate.
Qed.

Lemma double_lt_number a b :
  double_lt a b = true → is_number a ∧ is_number b.
Proof.
  unfold double_lt, SFltb, is_number.
  destruct a, b; cbn; try discriminate; split; discriminate.
Qed.

Lemma double_le_trans a b c :
  double_le a b = true → double_le b c = true → double_le a c = true.
Proof.
  intros Hab Hbc.
  destruct (double_le_number _ _ Hab) as [Ha Hb].
  destruct (double_le_number _ _ Hbc) as [_ Hc].
  apply double_le_key in Hab, Hbc; try done. apply double_le_key; try done.
  unfold key_le in *. lia.
Qed.

Lemma double_le_refl a : is_number a → double_le a a = true.
Proof. intros Ha. apply double_le_key; try done. unfold key_le. lia. Qed.

Lemma double_lt_le a b : double_lt a b = true → double_le a b = true.
Proof.
  intros Hab. destruct (double_lt_number _ _ Hab) as [Ha Hb].
  apply double_lt_key in Hab; try done. apply double_le_key; try done.
  unfold key_le, key_lt in *. lia.
Qed.

(** Among numbers [<=] is what [<] the other way round is not. *)
Lemma double_not_lt_le a b :
  is_number a → is_number b → double_lt b a = false → double_le a b = true.
Proof.
  intros Ha Hb Hlt. apply double_le_key; try done.
  assert (¬ key_lt (double_key b) (double_key a)) as Hn.
  { intros Hk. apply double_lt_key in Hk; try done. congruence. }
  unfold key_le, key_lt in *. lia.
Qed.

Lemma double_eq_not_lt a b q :
  double_eq a q = true → double_eq b q = true → double_lt b a = false.
Proof.
  intros (Ha & _ & Hka)%double_eq_key (Hb & _ & Hkb)%double_eq_key.
  destruct (double_lt b a) eqn:Hlt; [|done].
  apply double_lt_key in Hlt; try done.
  rewrite Hka, Hkb in Hlt. unfold key_lt in Hlt. lia.
Qed.

Lemma double_eq_sym a b : double_eq a b = true → double_eq b a = true.
Proof.
  intros (Ha & Hb & Hk)%double_eq_key. by apply double_eq_key.
Qed.

Lemma double_eq_refl_l a b : double_eq a b = true → double_eq a a = true.
Proof.
  intros (Ha & Hb & Hk)%double_eq_key. by apply double_eq_key.
Qed.

Lemma iter_pos_invariant {A : Type} (P : A → Prop) (f : A → A) :
  (∀ x, P x → P (f x)) → ∀ p x, P x → P (SpecFloat.iter_pos f p x).
Proof.
  intros Hf. induction p as [p IH|p IH|]; intros x Hx; cbn.
  - apply IH, IH, Hf, Hx.
  - apply IH, IH, Hx.
  - apply Hf, Hx.
Qed.

Lemma shr_1_nonneg mrs : 0 ≤ shr_m mrs → 0 ≤ shr_m (shr_1 mrs).
Proof.
  destruct mrs as [m r s]. cbn. destruct m as [|[p|p|]|p]; cbn; lia.
Qed.

Lemma shr_fexp_nonneg prec emax m e l :
  0 ≤ m → 0 ≤ shr_m (shr_fexp prec emax m e l).1.
Proof.
  intros Hm. unfold shr_fexp, shr.
  assert (0 ≤ shr_m (shr_record_of_loc m l)) as H0
    by (destruct l as [|[]]; exact Hm).
  destruct (fexp prec emax (Zdigits2 m + e) - e) as [|p|p]; cbn [fst];
    try exact H0.
  apply (iter_pos_invariant (λ r, 0 ≤ shr_m r)); [apply shr_1_nonneg|exact H0].
Qed.

Lemma round_nearest_even_nonneg m l : 0 ≤ m → 0 ≤ round_nearest_even m l.
Proof.
  intros Hm. destruct l as [|[]]; cbn; try lia. destruct (Z.even m); lia.
Qed.

(** Rounding a non-negative mantissa never gives NaN. *)
Lemma binary_round_aux_number prec emax sx mx ex lx :
  0 ≤ mx → binary_round_aux prec emax sx mx ex lx ≠ S754_nan.
Proof.
  intros Hm. unfold binary_round_aux.
  pose proof (shr_fexp_nonneg prec emax mx ex lx Hm) as H1.
  destruct (shr_fexp prec emax mx ex lx) as [mrs' e']. cbn [fst] in H1.
  pose proof (shr_fexp_nonneg prec emax _ e' loc_Exact
                (round_nearest_even_nonneg _ (loc_of_shr_record mrs') H1)) as H2.
  destruct (shr_fexp prec emax _ e' loc_Exact) as [mrs'' e'']. cbn [fst] in H2.
  destruct (shr_m mrs'') as [|p|p]; [discriminate| |lia].
  destruct (e'' <=? emax - prec); discriminate.
Qed.

Lemma total_seconds_number d : is_number (total_seconds d).
Proof.
  unfold is_number, total_seconds.
  assert (∀ s p,
            SFdiv 53 1024 (S754_finite s p 0) (S754_finite false 1000000 0)
            ≠ S754_nan) as Hdiv.
  { intros s p. unfold SFdiv, SFdiv_core_binary.
    match goal with
    | |- context [Z.div_eucl ?a ?b] =>
        pose proof (Z.div_pos a b) as Hq;
        unfold Z.div in Hq; destruct (Z.div_eucl a b) as [q r]
    end.
    apply binary_round_aux_number. apply Hq; [|lia].
    match goal with
    | |- 0 ≤ match ?s with _ => _ end => destruct s; try lia
    end.
    apply Z.shiftl_nonneg. lia. }
  destruct d; [discriminate|apply Hdiv|apply Hdiv].
Qed.

(** A score is a number: the sum of two absolute values is never NaN. *)
Lemma score_number a b :
  is_number a → is_number b →
  is_number (double_add (double_abs a) (double_abs b)).
Proof.
  unfold is_number, double_add, double_abs.
  intros Ha Hb.
  destruct a as [sa|sa| |sa ma ea], b as [sb|sb| |sb mb eb]; try congruence;
    cbn [SFabs SFadd]; try discriminate.
  unfold binary_normalize, cond_Zopp.
  destruct (shl_align ma ea (Z.min ea eb)) as [m1 e1].
  destruct (shl_align mb eb (Z.min ea eb)) as [m2 e2].
  cbn [fst]. change (Z.pos m1 + Z.pos m2) with (Z.pos (m1 + m2)). cbv iota.
  unfold binary_round.
  destruct (shl_align _ _ _) as [mz ez].
  apply binary_round_aux_number. lia.
Qed.

End Doubles.

(** ** Properties of the sort *)

Section Sorting.

Lemma insert_by_key_perm x l : insert_by_key x l ≡ₚ x :: l.
Proof.
  induction l as [|y l IH]; simpl; [done|].
  destruct (double_lt y.1 x.1); [|done].
  rewrite IH. apply perm_swap.
Qed.

Lemma sort_by_key_perm l : sort_by_key l ≡ₚ l.
Proof.
  induction l as [|x l IH]; simpl; [done|].
  fold (sort_by_key l). by rewrite insert_by_key_perm, IH.
Qed.

Lemma insert_by_key_sorted x l :
  is_number x.1 → Forall (λ y, is_number y.1) l →
  StronglySorted score_le l → StronglySorted score_le (insert_by_key x l).
Proof.
  intros Hx Hnum. induction 1 as [|y l Hs IH Hy]; simpl.
  - repeat constructor.
  - apply Forall_cons in Hnum as [Hny Hnum].
    destruct (double_lt y.1 x.1) eqn:Hyx.
    + constructor; [by apply IH|].
      rewrite insert_by_key_perm. constructor; [|done].
      by apply double_lt_le.
    + assert (score_le x y) as Hxy by by apply double_not_lt_le.
      constructor; [by constructor|].
      constructor; [done|].
      eapply Forall_impl; [exact Hy|].
      intros z Hz. unfold score_le in *. by eapply double_le_trans.
Qed.

Lemma sort_by_key_sorted l :
  Forall (λ y, is_number y.1) l → StronglySorted score_le (sort_by_key l).
Proof.
  induction 1 as [|x l Hx Hl IH]; simpl; [constructor|].
  fold (sort_by_key l). apply insert_by_key_sorted; [done| |done].
  by rewrite sort_by_key_perm.
Qed.

(** Inserting [x] moves it past elements of strictly smaller score only,
    so within one score class the order of arrival is kept. *)
Lemma insert_by_key_stable q x l :
  List.filter (same_score q) (insert_by_key x l)
  = List.filter (same_score q) (x :: l).
Proof.
  induction l as [|y l IH]; [done|].
  cbn [insert_by_key]. destruct (double_lt y.1 x.1) eqn:Hyx; [|done].
  cbn [List.filter] in *. rewrite IH.
  destruct (same_score q x) eqn:Hx; [|done].
  destruct (same_score q y) eqn:Hy; [|done].
  exfalso. unfold same_score in *.
  by rewrite (double_eq_not_lt _ _ _ Hx Hy) in Hyx.
Qed.

Lemma sort_by_key_stable q l :
  List.filter (same_score q) (sort_by_key l) = List.filter (same_score q) l.
Proof.
  induction l as [|x l IH]; [done|].
  cbn [sort_by_key foldr]. fold (sort_by_key l).
  rewrite insert_by_key_stable. cbn [List.filter]. by rewrite IH.
Qed.

Lemma filter_cons_inv (p : double * pyval → bool) l a v :
  List.filter p l = a :: v →
  ∃ l1 l2 : list (double * pyval), l = l1 ++ a :: l2 ∧ List.filter p l2 = v.
Proof.
  induction l as [|x l IH]; [done|]. cbn [List.filter].
  destruct (p x).
  - intros [= -> <-]. by exists [], l.
  - intros (l1 & l2 & -> & Hv)%IH. by exists (x :: l1), l2.
Qed.

Lemma filter_app_inv (p : double * pyval → bool) l u v :
  List.filter p l = u ++ v →
  ∃ l1 l2 : list (double * pyval), l = l1 ++ l2 ∧ List.filter p l2 = v.
Proof.
  revert l. induction u as [|a u IH]; intros l.
  - intros Hl. by exists [], l.
  - intros (l1 & l2 & -> & Hv)%filter_cons_inv.
    apply IH in Hv as (k1 & k2 & -> & Hv).
    exists (l1 ++ a :: k1), k2. by rewrite <- app_assoc.
Qed.

(** Stability, pair by pair: of two elements of equal score the one that
    came first still comes first after the sort. *)
Lemma sort_by_key_keeps_order a b (l1 l2 l3 : list (double * pyval)) :
  double_eq a.1 b.1 = true →
  ∃ m1 m2 m3 : list (double * pyval), sort_by_key (l1 ++ a :: l2 ++ b :: l3)
    = m1 ++ a :: m2 ++ b :: m3.
Proof.
  intros Hab.
  pose proof (sort_by_key_stable a.1 (l1 ++ a :: l2 ++ b :: l3)) as Hst.
  assert (same_score a.1 a = true) as Ha by by eapply double_eq_refl_l.
  assert (same_score a.1 b = true) as Hb by by apply double_eq_sym.
  rewrite (List.filter_app _ l1) in Hst. cbn [List.filter] in Hst.
  rewrite Ha, (List.filter_app _ l2) in Hst. cbn [List.filter] in Hst.
  rewrite Hb in Hst.
  apply filter_app_inv in Hst as (o1 & o2 & -> & Hst).
  apply filter_cons_inv in Hst as (n1 & n2 & -> & Hst).
  apply filter_app_inv in Hst as (k1 & k2 & -> & Hst).
  apply filter_cons_inv in Hst as (j1 & j2 & -> & _).
  exists (o1 ++ n1), (k1 ++ j1), j2.
  by rewrite <- !app_assoc.
Qed.

End Sorting.

(** ** Properties of the selection *)

Section Selection.
Variable H : host.

Lemma collect_scored now ft entries retained :
  collect H now ft entries = Ok retained →
  Forall (scored H now ft) retained ∧ sublist (map snd retained) entries.
Proof.
  revert retained. induction entries as [|te entries IH]; intros retained.
  { intros [= <-]. split; constructor. }
  cbn [collect]. unfold scored, valid_from_of, valid_to_of.
  destruct (getitem te "@from") as [f|] eqn:Hf; [|done]. cbn.
  destruct (parse_datetime H f) as [vf|] eqn:Hvf; [|done]. cbn.
  destruct (getitem te "@to") as [t|] eqn:Ht; [|done]. cbn.
  destruct (parse_datetime H t) as [vt|] eqn:Hvt; [|done]. cbn.
  destruct vt as [[t_to|]|]; cbn; try done.
  destruct (Z.leb_spec t_to now) as [Hle|Hlt].
  - intros Hc. destruct (IH _ Hc) as [Hs Hsub].
    split; [done|]. by apply sublist_cons.
  - destruct vf as [[t_from|]|]; cbn; try done.
    destruct (collect H now ft entries) as [tl|] eqn:Hc; [|done]. cbn.
    intros [= <-]. destruct (IH _ eq_refl) as [Hs Hsub].
    split.
    + constructor; [|done]. exists t_from, t_to. cbn.
      rewrite Hf, Ht. cbn. by rewrite Hvf, Hvt.
    + cbn. by apply sublist_skip.
Qed.

(** Every score the loop computes is a number. *)
Lemma collect_numbers now ft entries retained :
  collect H now ft entries = Ok retained →
  Forall (λ x, is_number x.1) retained.
Proof.
  intros [Hs _]%collect_scored.
  eapply Forall_impl; [exact Hs|].
  intros x (t_from & t_to & _ & _ & _ & ->).
  apply score_number; apply total_seconds_number.
Qed.

Lemma ordered_entries_inv s now ordered :
  ordered_entries H s now = Ok ordered →
  ∃ entries retained,
    time_entries s = Ok entries ∧
    collect H now (forecast_time s now) entries = Ok retained ∧
    ordered = sort_by_key retained.
Proof.
  unfold ordered_entries.
  destruct (time_entries s) as [entries|]; [|done]. cbn.
  destruct (collect H now (forecast_time s now) entries) as [r|] eqn:Hc;
    [|done]. cbn.
  intros [= <-]. exists entries, r. by rewrite Hc.
Qed.

Lemma ordered_entries_scored s now ordered :
  ordered_entries H s now = Ok ordered →
  Forall (scored H now (forecast_time s now)) ordered.
Proof.
  intros (entries & retained & _ & Hc & ->)%ordered_entries_inv.
  rewrite sort_by_key_perm. by apply collect_scored in Hc as [? _].
Qed.

Lemma selected_entry_elem ty ordered e :
  selected_entry ty ordered = Ok (Some e) → ∃ q, (q, e) ∈ ordered.
Proof.
  induction ordered as [|[q te] ordered IH]; [done|]. cbn.
  destruct (getitem te "location") as [loc|]; [|done]. cbn.
  destruct (contains ty loc) as [[|]|]; cbn; try done.
  - intros [= ->]. exists q. apply elem_of_cons. by left.
  - intros [q' Hq']%IH. exists q'. apply elem_of_cons. by right.
Qed.

(** [new_state] is the extraction applied at the entry the scan stops on. *)
Lemma new_state_selected ty ordered :
  new_state H ty ordered =
  r ← selected_entry ty ordered;
  match r with
  | Some e => loc_data ← getitem e "location"; extract H ty loc_data
  | None => Ok PyNone
  end.
Proof.
  induction ordered as [|[q te] ordered IH]; [done|]. cbn.
  destruct (getitem te "location") as [loc|] eqn:Hl; [|done]. cbn.
  destruct (contains ty loc) as [[|]|]; cbn; try done.
  by rewrite Hl.
Qed.

(** C2. Whatever the document, the instant [now] and the device type, the
    time entry on which a device's scan stops has a [@to] bound strictly
    later than [now]: an entry with [valid_to <= now] is never selected. *)
Theorem passed_entry_never_selected s now ordered ty e :
  ordered_entries H s now = Ok ordered →
  selected_entry ty ordered = Ok (Some e) →
  ∃ t_to, valid_to_of H e = Ok (Some (Aware t_to)) ∧ now < t_to.
Proof.
  intros Ho [q Hq]%selected_entry_elem.
  apply ordered_entries_scored in Ho.
  rewrite Forall_forall in Ho. apply Ho in Hq as (t_from & t_to & _ & Hto & Hlt & _).
  by exists t_to.
Qed.

(** C3. Every retained entry is ordered by the score
    [|valid_to - forecast_time| + |valid_from - forecast_time|], both
    distances in seconds: the sum of the two, not their mean.  The sum is
    the one the code computes, on doubles: each distance is
    [total_seconds()] of the difference, and the two absolute values are
    added as doubles. *)
Theorem score_is_sum_of_distances s now ordered q e :
  ordered_entries H s now = Ok ordered →
  (q, e) ∈ ordered →
  ∃ t_from t_to,
    valid_from_of H e = Ok (Some (Aware t_from)) ∧
    valid_to_of H e = Ok (Some (Aware t_to)) ∧
    q = double_add
          (double_abs (total_seconds (t_to - forecast_time s now)))
          (double_abs (total_seconds (t_from - forecast_time s now))).
Proof.
  intros Ho Hq. apply ordered_entries_scored in Ho.
  rewrite Forall_forall in Ho. apply Ho in Hq as (t_from & t_to & ? & ? & _ & ?).
  by exists t_from, t_to.
Qed.


End Selection.

(** ** Properties of the device loop *)

Section Devices.
Variable H : host.

Lemma lacks_inv ty q e :
  lacks ty (q, e) = true →
  ∃ loc_data, getitem e "location" = Ok loc_data ∧ contains ty loc_data = Ok false.
Proof.
  unfold lacks. cbn [snd].
  destruct (getitem e "location") as [loc|]; [|done].
  destruct (contains ty loc) as [[|]|] eqn:Hc; try done.
  by exists loc.
Qed.

(** C5. A device's scan steps over the entries that lack its variable and
    stops on the first one that has it, taking its value from that entry;
    when it steps over every entry the result is [None]. *)
Theorem first_entry_with_variable_wins ty skipped :
  forallb (lacks ty) skipped = true →
  new_state H ty skipped = Ok PyNone ∧
  ∀ q e rest loc_data,
    getitem e "location" = Ok loc_data →
    contains ty loc_data = Ok true →
    selected_entry ty (skipped ++ (q, e) :: rest) = Ok (Some e) ∧
    new_state H ty (skipped ++ (q, e) :: rest) = extract H ty loc_data.
Proof.
  induction skipped as [|[q0 e0] skipped IH]; cbn [forallb]; intros Hs.
  - split; [done|]. intros q e rest loc Hl Hc. cbn. rewrite Hl. cbn.
    by rewrite Hc.
  - apply andb_true_iff in Hs as [Hl0 Hs].
    apply lacks_inv in Hl0 as (loc0 & Hl0 & Hc0).
    destruct (IH Hs) as [IHn IHm].
    split.
    + cbn. rewrite Hl0. cbn. by rewrite Hc0.
    + intros q e rest loc Hl Hc. cbn. rewrite Hl0. cbn. rewrite Hc0. cbn.
      by apply IHm.
Qed.

Lemma sensor_type_known_inv ty :
  sensor_type_known ty = true →
  ty ∈ map fst SENSOR_TYPES.
Proof.
  unfold sensor_type_known. intros Hk.
  apply existsb_exists in Hk as ([k v] & Hin & Heq).
  apply String.eqb_eq in Heq. cbn in Heq. subst k.
  apply list_elem_of_In, in_map_iff. by exists (ty, v).
Qed.

(** C6. For each of the sensor types of [SENSOR_TYPES] the extraction is
    fixed by the type's name: [windDirection] is the [@deg] attribute passed
    through [float]; every other type is the attribute [source_field]
    names, returned as the document has it. *)
Theorem extraction_fixed_by_type ty loc_data :
  sensor_type_known ty = true →
  extract H ty loc_data =
  if String.eqb ty "windDirection" then
    v ← getitem loc_data ty; d ← getitem v "@deg";
    f ← py_float H d; Ok (PyFloat f)
  else
    v ← getitem loc_data ty; getitem v (source_field ty).
Proof.
  intros Hk%sensor_type_known_inv. cbn in Hk.
  repeat (apply elem_of_cons in Hk as [->|Hk]; [reflexivity|]).
  by apply elem_of_nil in Hk.
Qed.

Lemma update_devices_tasks_ge ordered devs i devs' tks r :
  update_devices H ordered devs i = (devs', tks, r) →
  ∀ j, j ∈ tks → (i ≤ j)%nat.
Proof.
  revert i devs' tks r. induction devs as [|dev devs IH]; intros i devs' tks r.
  { intros [= <- <- <-] j Hj. by apply elem_of_nil in Hj. }
  cbn [update_devices].
  destruct (new_state H (type dev) ordered) as [v|x].
  2:{ intros [= <- <- <-] j Hj. by apply elem_of_nil in Hj. }
  destruct (update_devices H ordered devs (S i)) as [[rest' tks'] r'] eqn:Hu.
  specialize (IH _ _ _ _ Hu).
  destruct (py_ne v (_state dev)); intros [= <- <- <-] j Hj.
  - apply elem_of_cons in Hj as [->|Hj]; [lia|]. apply IH in Hj. lia.
  - apply IH in Hj. lia.
Qed.

(** What a completed run of the loop did to the device at position [k]. *)
Lemma update_devices_lookup ordered devs i devs' tks k dev :
  update_devices H ordered devs i = (devs', tks, None) →
  devs !! k = Some dev →
  ∃ v, new_state H (type dev) ordered = Ok v ∧
       ((i + k)%nat ∈ tks ↔ py_ne v (_state dev) = true) ∧
       devs' !! k = Some (if py_ne v (_state dev) then set_state dev v else dev).
Proof.
  revert i devs' tks k. induction devs as [|d devs IH]; intros i devs' tks k.
  { by intros _ ?. }
  cbn [update_devices].
  destruct (new_state H (type d) ordered) as [v|x] eqn:Hn; [|done].
  destruct (update_devices H ordered devs (S i)) as [[rest' tks'] r'] eqn:Hu.
  pose proof (update_devices_tasks_ge _ _ _ _ _ _ Hu) as Hge.
  destruct k as [|k]; cbn [lookup list_lookup].
  - intros Hr [= ->]. exists v. split; [done|].
    replace (i + 0)%nat with i by lia.
    destruct (py_ne v (_state dev)) eqn:Hne; inversion Hr; subst.
    + split; [|done]. split; [done|]. intros _. apply elem_of_cons. by left.
    + split; [|done]. split; [|done]. intros Hi%Hge. lia.
  - intros Hr Hk.
    assert (r' = None) as -> by (destruct (py_ne v (_state d)); by inversion Hr).
    destruct (IH _ _ _ _ Hu Hk) as (w & Hw & Htk & Hlk).
    exists w. split; [done|].
    replace (i + S k)%nat with (S i + k)%nat by lia.
    destruct (py_ne v (_state d)); inversion Hr; subst; split; try done.
    rewrite elem_of_cons. rewrite <- Htk. split; [|by right].
    intros [?|?]; [lia|done].
Qed.

(** The loop completes when every device's scan does. *)
Lemma update_devices_returns ordered devs i :
  Forall (λ dev, ∃ v, new_state H (type dev) ordered = Ok v) devs →
  (update_devices H ordered devs i).2 = None.
Proof.
  intros Hall. revert i. induction Hall as [|dev devs [v Hv] _ IH]; intros i.
  { done. }
  cbn [update_devices]. rewrite Hv. specialize (IH (S i)).
  destruct (update_devices H ordered devs (S i)) as [[rest' tks'] r'].
  cbn in IH. subst r'. by destruct (py_ne v (_state dev)).
Qed.

End Devices.

(** ** Properties of a whole call *)

Section Refresh.
Variable H : host.

Lemma parse_response_devices s txt :
  devices (parse_response H s txt).1 = devices s.
Proof.
  unfold parse_response.
  destruct (_ ≫= _) as [wd|x]; [|done].
  by destruct (extract_nextrun H wd).
Qed.

(** The refresh stage never touches the devices. *)
Lemma refresh_proceed_devices s e s' :
  refresh H s e = Proceed s' → devices s' = devices s.
Proof.
  unfold refresh. intros Hr.
  destruct (needs_fetch s e) as [[|]|]; try discriminate.
  - destruct (fetch_text e) as [[txt|]|x]; try discriminate.
    + pose proof (parse_response_devices s txt) as Hd.
      destruct (parse_response H s txt) as [s1 [u|x]]; simpl in *.
      * by inversion Hr; subst.
      * by destruct (caught_parse x).
    + by destruct (caught_fetch x).
  - by inversion Hr.
Qed.

(** A subscript by a string raises [KeyError] or [TypeError], neither of
    which the second [try] catches. *)
Lemma getitem_raise v k x : getitem v k = Raise x → caught_parse x = false.
Proof.
  destruct v as [| | | |d]; cbn; try by intros [= <-].
  destruct (dict_get d k); [done|]. by intros [= <-].
Qed.

(** Every failure ends the call in [retry]. *)
Lemma failure_retry s e :
  failure H s e →
  ∃ s', async_update H s e = retry s' e ∧ devices s' = devices s.
Proof.
  unfold async_update, refresh.
  intros [x Hg Hf Hx | Hg Hf | txt x Hg Hf Hp Hx]; rewrite Hg, Hf.
  - rewrite Hx. by exists s.
  - by exists s.
  - pose proof (parse_response_devices s txt) as Hd.
    destruct (parse_response H s txt) as [s1 r]. cbn in *. subst r.
    rewrite Hx. by exists s1.
Qed.

(** The second [try] for an arbitrary host.  When [xmltodict.parse] itself
    raises a caught error, [data] is what it was.  Were the body to parse
    and only the reading of [meta], [model] or [@nextrun] to raise a caught
    error, [data] would already hold the newly parsed [weatherdata].
    Either way the call returns normally, [_nextrun] is forgotten, the
    devices keep their states and no update task is created. *)
Lemma failed_parse_keeps_devices_and_old_data_on_parse_error s e txt x :
  needs_fetch s e = Ok true →
  fetch_text e = Ok (Some txt) →
  (parse_response H s txt).2 = Raise x →
  caught_parse x = true →
  let out := async_update H s e in
  raised out = None ∧ tasks out = [] ∧
  devices (self out) = devices s ∧ _nextrun (self out) = None ∧
  match xmltodict_parse H txt with
  | Raise _ => data (self out) = data s
  | Ok doc =>
      ∃ wd, getitem doc "weatherdata" = Ok wd ∧
            extract_nextrun H wd = Raise x ∧ data (self out) = wd
  end.
Proof.
  intros Hg Hf Hp Hx out. subst out.
  unfold async_update, refresh. rewrite Hg, Hf.
  pose proof (parse_response_devices s txt) as Hd.
  revert Hp Hd. unfold parse_response.
  destruct (xmltodict_parse H txt) as [doc|y]; cbn.
  - destruct (getitem doc "weatherdata") as [wd|y] eqn:Hw; cbn.
    + destruct (extract_nextrun H wd) as [n|y] eqn:He; cbn; [done|].
      intros [= ->] _. rewrite Hx. cbn. repeat split. by exists wd.
    + intros [= ->] _. apply getitem_raise in Hw. congruence.
  - intros [= ->] _. by rewrite Hx.
Qed.

(** C8. On every fetch or parse failure the call returns normally and the
    one-shot timer for [nxt = utcnow() + 15 minutes] is armed exactly when
    [nxt.minute >= 15]; otherwise nothing is armed.  There are clock
    readings at which the same failure arms no timer at all. *)
Theorem retry_armed_iff_minute_at_least_15 s e :
  failure H s e →
  let nxt := utcnow_retry e + timedelta_minutes 15 in
  let out := async_update H s e in
  raised out = None ∧
  timers out = (if 15 <=? minute_of nxt then [nxt] else []) ∧
  (timers out = [nxt] ↔ 15 ≤ minute_of nxt) ∧
  (minute_of nxt < 15 → timers out = []) ∧
  ∃ t, failure H s (at_retry_time e t) ∧
       timers (async_update H s (at_retry_time e t)) = [].
Proof.
  intros Hfail nxt out.
  destruct (failure_retry s e Hfail) as (s' & Hout & _).
  subst out. rewrite Hout. unfold retry, try_again. cbn. fold nxt.
  repeat split.
  - destruct (Z.leb_spec 15 (minute_of nxt)); [done|]. intros [=].
  - intros Hle. apply Z.leb_le in Hle. by rewrite Hle.
  - intros Hlt. apply Z.leb_gt in Hlt. by rewrite Hlt.
  - exists (clock 0 45).
    assert (failure H s (at_retry_time e (clock 0 45))) as Hfail'.
    { destruct Hfail as [y ? ? ? | ? ? | txt y ? ? ? ?].
      - by eapply failure_fetch.
      - by eapply failure_status.
      - by eapply failure_parse. }
    split; [done|].
    destruct (failure_retry _ _ Hfail') as (s'' & -> & _). reflexivity.
Qed.

(** C7. When the selection runs to its end, a device's update task is
    created exactly when its new state differs, under Python's [!=], from
    the state it holds; then the device takes the new state.  A device
    whose new state equals the held one is left as it was and gets no
    task. *)
Theorem update_dispatched_iff_state_differs s e s' ordered k dev :
  refresh H s e = Proceed s' →
  ordered_entries H s' (utcnow_now e) = Ok ordered →
  ordered ≠ [] →
  raised (async_update H s e) = None →
  devices s !! k = Some dev →
  let out := async_update H s e in
  ∃ v, new_state H (type dev) ordered = Ok v ∧
       (k ∈ tasks out ↔ py_ne v (_state dev) = true) ∧
       (py_ne v (_state dev) = true →
        devices (self out) !! k = Some (set_state dev v)) ∧
       (py_ne v (_state dev) = false →
        devices (self out) !! k = Some dev ∧ k ∉ tasks out).
Proof.
  intros Hr Ho Hne Hraise Hk out. subst out. revert Hraise.
  unfold async_update. rewrite Hr. unfold select_stage. rewrite Ho.
  rewrite <- (refresh_proceed_devices _ _ _ Hr) in Hk.
  destruct ordered as [|x ordered]; [done|].
  destruct (update_devices H (x :: ordered) (devices s') 0)
    as [[devs tks] r] eqn:Hu.
  cbn. intros ->.
  destruct (update_devices_lookup _ _ _ _ _ _ _ _ Hu Hk) as (v & Hv & Htk & Hlk).
  exists v. cbn in Htk. split; [done|]. split; [done|].
  destruct (py_ne v (_state dev)); split; try done.
  intros _. split; [done|]. intros Hin%Htk. done.
Qed.

(** C10. When every time entry is discarded as already passed, so that no
    entry is retained, the device loop is not entered: the call returns
    normally, every device keeps the state it had, and no update task is
    created.  In particular no device is reset to [None]. *)
Theorem no_retained_entry_no_update s e s' entries :
  refresh H s e = Proceed s' →
  time_entries s' = Ok entries →
  collect H (utcnow_now e) (forecast_time s' (utcnow_now e)) entries = Ok [] →
  let out := async_update H s e in
  self out = s' ∧ devices (self out) = devices s ∧
  tasks out = [] ∧ timers out = [] ∧ raised out = None.
Proof.
  intros Hr Ht Hc out. subst out. unfold async_update. rewrite Hr.
  unfold select_stage, ordered_entries. rewrite Ht. simpl. rewrite Hc. simpl.
  repeat split. by apply refresh_proceed_devices with e.
Qed.

End Refresh.

(** ** Properties of the device-config view *)

Module ZWaveProps.
Import ZWave.

(** C9. A POST for a known entity whose body passes the schema is answered
    200 with [{"result": "ok"}] and writes once: the stored mapping in which
    that entity's config has the posted options laid over its previous
    options.  The entity's other options and every other entity's config
    are as they were stored. *)
Theorem post_merges_into_stored_config
    (known : string → bool) (stored : gmap string (gmap string jval))
    (entity_id : string) (opts : gmap string jval) :
  known entity_id = true →
  valid_options opts = true →
  ∃ written,
    post known stored entity_id (Some opts) = (result_ok, [written]) ∧
    (∀ k v, opts !! k = Some v →
       written !! entity_id ≫= (.!! k) = Some v) ∧
    (∀ k, opts !! k = None →
       written !! entity_id ≫= (.!! k) = stored !! entity_id ≫= (.!! k)) ∧
    (∀ other, other ≠ entity_id → written !! other = stored !! other).
Proof.
  intros Hk Hv. unfold post. rewrite Hk, Hv. cbn.
  eexists. split; [reflexivity|]. split; [|split].
  - intros k v Hkv. rewrite lookup_insert_eq. cbn.
    by apply lookup_union_Some_l.
  - intros k Hkv. rewrite lookup_insert_eq. cbn.
    rewrite lookup_union_r by done.
    by destruct (stored !! entity_id).
  - intros other Hne. by rewrite lookup_insert_ne.
Qed.

(** The request of [test_update_device_config]. *)
Lemma post_merges_into_stored_config_witness :
  ∃ written,
    post (λ id, bool_decide (is_Some (orig_data !! id))) orig_data
      "hello.beer" (Some {["polling_intensity" := JInt 2]})
    = (result_ok, [written]) ∧
    (∀ k v, ({["polling_intensity" := JInt 2]} : gmap string jval) !! k = Some v →
       written !! "hello.beer" ≫= (.!! k) = Some v) ∧
    (∀ k, ({["polling_intensity" := JInt 2]} : gmap string jval) !! k = None →
       written !! "hello.beer" ≫= (.!! k) = orig_data !! "hello.beer" ≫= (.!! k)) ∧
    (∀ other, other ≠ "hello.beer" → written !! other = orig_data !! other).
Proof.
  apply (post_merges_into_stored_config
           (λ id, bool_decide (is_Some (orig_data !! id))) orig_data
           "hello.beer" {["polling_intensity" := JInt 2]}).
  - vm_compute. reflexivity.
  - vm_compute. reflexivity.
Defined.

End ZWaveProps.

(** ** The model at work

    The theorems above at [demo_host], on the document [morning]. *)

(** Why the shape of the parser's values matters.  [demo_host] is not
    [deployed]: it returns a [model] that is an empty list, which
    [xmltodict] never builds.  Then [model[0]] raises [IndexError] after
    [data] has been assigned; the call takes the [try_again] path and arms
    the timer for 09:45, and [data], which held [morning], holds
    [no_model]. *)
Lemma failed_metadata_extraction_replaces_data :
  let e := at_nine 30 (ok_response "<no_model/>") in
  let out := async_update demo_host due e in
  needs_fetch due e = Ok true ∧
  fetch_text e = Ok (Some "<no_model/>") ∧
  (parse_response demo_host due "<no_model/>").2 = Raise IndexError ∧
  raised out = None ∧ timers out = [clock 9 45] ∧
  data due = morning ∧ data (self out) = no_model ∧
  data (self out) ≠ data due.
Proof.
  cbv zeta. repeat split; try (vm_compute; reflexivity).
  intros Heq. vm_compute in Heq. discriminate Heq.
Qed.

Lemma failed_parse_keeps_devices_and_old_data_on_parse_error_witness :
  let e := at_nine 50 (ok_response "<morning") in
  let out := async_update demo_host due e in
  raised out = None ∧ tasks out = [] ∧
  devices (self out) = devices due ∧ _nextrun (self out) = None ∧
  data (self out) = data due.
Proof.
  apply (failed_parse_keeps_devices_and_old_data_on_parse_error
           demo_host due (at_nine 50 (ok_response "<morning")) "<morning"
           ExpatError); reflexivity.
Defined.

Lemma passed_entry_never_selected_witness :
  ∃ t_to, valid_to_of demo_host entry_temp = Ok (Some (Aware t_to)) ∧
          clock 9 30 < t_to.
Proof.
  apply (passed_entry_never_selected demo_host loaded (clock 9 30)
           morning_ordered "temperature" entry_temp); reflexivity.
Defined.

(** The forecast is asked one hour ahead, three microseconds past 08:30:
    the window from 10:00 to 11:00 is 5399.999997 s and 1799.999997 s from
    the target instant and scores the double 7199.999994. *)
Lemma score_is_sum_of_distances_witness :
  ∃ t_from t_to,
    valid_from_of demo_host entry_later = Ok (Some (Aware t_from)) ∧
    valid_to_of demo_host entry_later = Ok (Some (Aware t_to)) ∧
    S754_finite false 7916483713390130 (-40)
    = double_add
        (double_abs (total_seconds (t_to - forecast_time ahead half_past_eight)))
        (double_abs (total_seconds (t_from - forecast_time ahead half_past_eight))).
Proof.
  apply (score_is_sum_of_distances demo_host ahead half_past_eight
           ahead_ordered _ entry_later); [reflexivity|].
  unfold ahead_ordered. rewrite !elem_of_cons. right. right. by left.
Defined.


Lemma first_entry_with_variable_wins_witness :
  new_state demo_host "windDirection" (take 1 morning_ordered) = Ok PyNone ∧
  ∀ q e rest loc_data,
    getitem e "location" = Ok loc_data →
    contains "windDirection" loc_data = Ok true →
    selected_entry "windDirection" (take 1 morning_ordered ++ (q, e) :: rest)
    = Ok (Some e) ∧
    new_state demo_host "windDirection"
      (take 1 morning_ordered ++ (q, e) :: rest)
    = extract demo_host "windDirection" loc_data.
Proof.
  apply (first_entry_with_variable_wins demo_host "windDirection"
           (take 1 morning_ordered)); reflexivity.
Defined.

Lemma extraction_fixed_by_type_witness :
  extract demo_host "windDirection"
    (PyDict [("windDirection", PyDict [("@deg", PyStr "180.5")])])
  = Ok (PyFloat 180.5%float) ∧
  extract demo_host "symbol"
    (PyDict [("symbol", PyDict [("@id", PyStr "Sun"); ("@number", PyStr "1")])])
  = Ok (PyStr "1").
Proof.
  split.
  - rewrite (extraction_fixed_by_type demo_host "windDirection");
      reflexivity.
  - rewrite (extraction_fixed_by_type demo_host "symbol"); reflexivity.
Defined.

Lemma update_dispatched_iff_state_differs_witness :
  let e := at_nine 30 (Raise ClientError) in
  let dev := sensor "temperature" (PyStr "7") in
  let out := async_update demo_host loaded e in
  ∃ v, new_state demo_host (type dev) morning_ordered = Ok v ∧
       (0%nat ∈ tasks out ↔ py_ne v (_state dev) = true) ∧
       (py_ne v (_state dev) = true →
        devices (self out) !! 0%nat = Some (set_state dev v)) ∧
       (py_ne v (_state dev) = false →
        devices (self out) !! 0%nat = Some dev ∧ 0%nat ∉ tasks out).
Proof.
  apply (update_dispatched_iff_state_differs demo_host loaded
           (at_nine 30 (Raise ClientError)) loaded morning_ordered 0
           (sensor "temperature" (PyStr "7"))); try reflexivity.
  discriminate.
Defined.

Lemma retry_armed_iff_minute_at_least_15_witness :
  let e := at_nine 50 (Raise ClientError) in
  let nxt := utcnow_retry e + timedelta_minutes 15 in
  let out := async_update demo_host due e in
  raised out = None ∧
  timers out = (if 15 <=? minute_of nxt then [nxt] else []) ∧
  (timers out = [nxt] ↔ 15 ≤ minute_of nxt) ∧
  (minute_of nxt < 15 → timers out = []) ∧
  ∃ t, failure demo_host due (at_retry_time e t) ∧
       timers (async_update demo_host due (at_retry_time e t)) = [].
Proof.
  apply (retry_armed_iff_minute_at_least_15 demo_host due
           (at_nine 50 (Raise ClientError))).
  apply (failure_fetch demo_host due _ ClientError); reflexivity.
Defined.

(** Every window of [morning] has passed at 11:30; the sensors keep what
    they show. *)
Lemma no_retained_entry_no_update_witness :
  let out := async_update demo_host loaded at_half_past_eleven in
  self out = loaded ∧ devices (self out) = devices loaded ∧
  tasks out = [] ∧ timers out = [] ∧ raised out = None.
Proof.
  apply (no_retained_entry_no_update demo_host loaded at_half_past_eleven
           loaded [entry_passed; entry_later; entry_temp; entry_wind]);
    reflexivity.
Defined.

(** A refresh at 09:30 that fetches [morning]: the temperature sensor
    already shows 7 and is left alone, the wind direction becomes the float
    180.5 and the humidity, found in no window, becomes [None]. *)
Example refresh_at_half_past_nine :
  let out := async_update demo_host due (at_nine 30 (ok_response "<morning/>")) in
  map _state (devices (self out)) = [PyStr "7"; PyFloat 180.5%float; PyNone] ∧
  tasks out = [1%nat; 2%nat] ∧ timers out = [] ∧ raised out = None ∧
  _nextrun (self out) = Some (Aware (clock 12 0)).
Proof. cbv zeta. repeat split; vm_compute; reflexivity. Qed.

(** [test_update_device_config]: what is written is [orig_data] with
    [polling_intensity] added to [hello.beer]. *)
Example test_update_device_config :
  ZWave.post (λ id, bool_decide (is_Some (ZWave.orig_data !! id)))
    ZWave.orig_data "hello.beer" (Some {["polling_intensity" := ZWave.JInt 2]})
  = (ZWave.result_ok,
     [ <["hello.beer" := <["polling_intensity" := ZWave.JInt 2]>
                           {["ignored" := ZWave.JBool true]}]>
         ZWave.orig_data ]).
Proof. vm_compute. reflexivity. Qed.

(** ** Further properties of the refresh stage *)

Section RefreshMore.
Variable H : host.

Lemma select_stage_frame s now :
  let o := select_stage H s now in
  data (self o) = data s ∧ _nextrun (self o) = _nextrun s ∧
  _forecast (self o) = _forecast s ∧ timers o = [].
Proof.
  unfold select_stage.
  destruct (ordered_entries H s now) as [[|x l]|]; cbn; try done.
  by destruct (update_devices H (x :: l) (devices s) 0) as [[? ?] ?].
Qed.

Lemma parse_response_raise s txt x :
  (parse_response H s txt).2 = Raise x →
  _nextrun (parse_response H s txt).1 = _nextrun s ∧
  _forecast (parse_response H s txt).1 = _forecast s.
Proof.
  unfold parse_response.
  destruct (_ ≫= _) as [wd|y]; [|done].
  by destruct (extract_nextrun H wd).
Qed.

Lemma parse_response_ok s txt s' u :
  parse_response H s txt = (s', Ok u) →
  ∃ doc, xmltodict_parse H txt = Ok doc ∧
         getitem doc "weatherdata" = Ok (data s') ∧
         extract_nextrun H (data s') = Ok (_nextrun s').
Proof.
  unfold parse_response.
  destruct (xmltodict_parse H txt) as [doc|y]; cbn; [|done].
  destruct (getitem doc "weatherdata") as [wd|y] eqn:Hw; cbn; [|done].
  destruct (extract_nextrun H wd) as [n|y] eqn:Hn; [|done].
  intros [= <-]. by exists doc.
Qed.

(** X1. While the stored model run is still ahead ([utcnow() < _nextrun])
    the call goes straight to the selection: the outcome does not depend on
    what the network would answer, [data] and [_nextrun] are kept and no
    timer is armed. *)
Theorem forecast_not_due_skips_the_fetch s e e' t :
  _nextrun s = Some (Aware t) →
  utcnow_gate e < t →
  same_clock e e' →
  let out := async_update H s e in
  async_update H s e' = out ∧
  out = select_stage H s (utcnow_now e) ∧
  data (self out) = data s ∧ _nextrun (self out) = _nextrun s ∧
  timers out = [].
Proof.
  intros Hn Hlt [Hg Hnow] out. subst out.
  assert (∀ e0, utcnow_gate e0 = utcnow_gate e →
                async_update H s e0 = select_stage H s (utcnow_now e0)) as Hskip.
  { intros e0 He0. unfold async_update, refresh, needs_fetch.
    rewrite Hn, He0. by destruct (Z.leb_spec t (utcnow_gate e)); [lia|]. }
  rewrite (Hskip e' Hg), (Hskip e eq_refl), Hnow.
  pose proof (select_stage_frame s (utcnow_now e)) as (? & ? & _ & ?).
  done.
Qed.

(** X2. When the GET or the read of the body raises a timeout or client
    error, or the status is not 200, the body is never parsed: apart from
    [_nextrun], which is forgotten, the object is exactly what it was, and
    the call returns normally without an update task. *)
Theorem failed_fetch_keeps_the_document s e :
  needs_fetch s e = Ok true →
  (∃ resp, http_get e = Ok resp ∧ status resp ≠ 200) ∨
  (∃ x, caught_fetch x = true ∧
        (http_get e = Raise x ∨
         ∃ resp, http_get e = Ok resp ∧ status resp = 200 ∧
                 text resp = Raise x)) →
  let out := async_update H s e in
  self out = set_nextrun s None ∧ tasks out = [] ∧ raised out = None.
Proof.
  intros Hg Hcase out. subst out. unfold async_update, refresh, fetch_text.
  rewrite Hg.
  destruct Hcase as [(resp & -> & Hst) | (x & Hx & [-> | (resp & -> & Hst & Ht)])];
    cbn.
  - by destruct (Z.eqb_spec (status resp) 200).
  - by rewrite Hx.
  - rewrite Hst, Ht. cbn. by rewrite Hx.
Qed.

(** X3. An exception that neither handler names is not turned into a
    retry: it escapes the call, no timer is armed, [_nextrun] is not
    forgotten and no device is touched. *)
Theorem unnamed_exception_escapes_without_retry s e x :
  needs_fetch s e = Ok true →
  (fetch_text e = Raise x ∧ caught_fetch x = false) ∨
  (∃ txt, fetch_text e = Ok (Some txt) ∧
          (parse_response H s txt).2 = Raise x ∧ caught_parse x = false) →
  let out := async_update H s e in
  raised out = Some x ∧ timers out = [] ∧ tasks out = [] ∧
  _nextrun (self out) = _nextrun s ∧ devices (self out) = devices s.
Proof.
  intros Hg Hcase out. subst out. unfold async_update, refresh. rewrite Hg.
  destruct Hcase as [[-> Hx] | (txt & -> & Hp & Hx)].
  - by rewrite Hx.
  - pose proof (parse_response_raise s txt x Hp) as [Hn _].
    pose proof (parse_response_devices H s txt) as Hd.
    destruct (parse_response H s txt) as [s1 r]. cbn in *. subst r.
    by rewrite Hx.
Qed.

(** X4. A body that is well-formed XML but has no [weatherdata] root makes
    the call raise [KeyError]: nothing of the object changes and no retry
    is armed. *)
Theorem missing_weatherdata_raises_key_error s e txt d :
  needs_fetch s e = Ok true →
  fetch_text e = Ok (Some txt) →
  xmltodict_parse H txt = Ok (PyDict d) →
  dict_get d "weatherdata" = None →
  let out := async_update H s e in
  raised out = Some KeyError ∧ self out = s ∧ timers out = [] ∧ tasks out = [].
Proof.
  intros Hg Hf Hp Hd out. subst out.
  unfold async_update, refresh, parse_response. rewrite Hg, Hf, Hp. cbn.
  by rewrite Hd.
Qed.

(** The timers of a call, by cases on the course it took. *)
Lemma timers_of_a_call s e :
  timers (async_update H s e) ≠ [] →
  failure H s e ∧
  timers (async_update H s e) = [utcnow_retry e + timedelta_minutes 15] ∧
  15 ≤ minute_of (utcnow_retry e + timedelta_minutes 15).
Proof.
  assert (∀ s', timers (retry s' e) ≠ [] →
            timers (retry s' e) = [utcnow_retry e + timedelta_minutes 15] ∧
            15 ≤ minute_of (utcnow_retry e + timedelta_minutes 15)) as Hretry.
  { intros s'. unfold retry, try_again. cbn.
    by destruct (Z.leb_spec 15 (minute_of (utcnow_retry e + timedelta_minutes 15))). }
  unfold async_update, refresh.
  destruct (needs_fetch s e) as [[|]|] eqn:Hg; try done.
  - destruct (fetch_text e) as [[txt|]|x] eqn:Hf.
    + destruct (parse_response H s txt) as [s1 [u|x]] eqn:Hp.
      * pose proof (select_stage_frame s1 (utcnow_now e)) as (_ & _ & _ & ->).
        done.
      * destruct (caught_parse x) eqn:Hx; [|done].
        intros Ht. split; [|by apply Hretry].
        apply (failure_parse H s e txt x); try done. by rewrite Hp.
    + intros Ht. split; [|by apply Hretry]. by apply failure_status.
    + destruct (caught_fetch x) eqn:Hx; [|done].
      intros Ht. split; [|by apply Hretry]. by apply (failure_fetch H s e x).
  - pose proof (select_stage_frame s (utcnow_now e)) as (_ & _ & _ & ->). done.
Qed.

(** X5. A timer is armed by a failure only, and then it is the single
    instant 15 minutes after the clock reading of [try_again], whose minute
    is at least 15: a call that reaches the selection or lets an exception
    escape arms nothing. *)
Theorem timer_armed_only_by_a_failure s e :
  timers (async_update H s e) ≠ [] →
  failure H s e ∧
  timers (async_update H s e) = [utcnow_retry e + timedelta_minutes 15] ∧
  15 ≤ minute_of (utcnow_retry e + timedelta_minutes 15).
Proof. apply timers_of_a_call. Qed.

(** X6. After a failure the next call always goes to the network, and if
    that call reaches the selection, the document it selects from is the
    [weatherdata] of the body it has just fetched and parsed: whatever a
    failed refresh left in [data] is never selected from. *)
Theorem document_of_a_failed_refresh_is_never_used s e e' s2 :
  failure H s e →
  refresh H (self (async_update H s e)) e' = Proceed s2 →
  needs_fetch (self (async_update H s e)) e' = Ok true ∧
  ∃ txt doc,
    fetch_text e' = Ok (Some txt) ∧
    xmltodict_parse H txt = Ok doc ∧
    getitem doc "weatherdata" = Ok (data s2).
Proof.
  intros (s1 & -> & _)%failure_retry.
  unfold retry, try_again. cbn. unfold refresh, needs_fetch. cbn.
  destruct (fetch_text e') as [[txt|]|x]; try done.
  - destruct (parse_response H (set_nextrun s1 None) txt) as [s' [u|x]] eqn:Hp.
    + intros [= <-]. split; [done|].
      apply parse_response_ok in Hp as (doc & ? & ? & _). by exists txt, doc.
    + by destruct (caught_parse x).
  - by destruct (caught_fetch x).
Qed.

End RefreshMore.

(** ** Further properties of the device loop *)

Section DevicesMore.
Variable H : host.

Lemma same_sensor_refl d : same_sensor d d.
Proof. by destruct d. Qed.

Lemma same_sensor_set_state d v : same_sensor d (set_state d v).
Proof. by destruct d. Qed.

Lemma update_devices_same_sensors ordered devs i :
  Forall2 same_sensor devs (update_devices H ordered devs i).1.1.
Proof.
  revert i. induction devs as [|dev devs IH]; intros i; cbn; [constructor|].
  destruct (new_state H (type dev) ordered) as [v|x]; cbn.
  - specialize (IH (S i)).
    destruct (update_devices H ordered devs (S i)) as [[rest' tks] r].
    destruct (py_ne v (_state dev)); cbn in *; constructor;
      auto using same_sensor_refl, same_sensor_set_state.
  - apply Forall2_same_length_lookup_2; [done|].
    intros k d d' -> [= ->]. apply same_sensor_refl.
Qed.

Lemma update_devices_tasks_increasing ordered devs i :
  StronglySorted lt (update_devices H ordered devs i).1.2 ∧
  Forall (λ j, (i ≤ j < i + length devs)%nat)
         (update_devices H ordered devs i).1.2.
Proof.
  revert i. induction devs as [|dev devs IH]; intros i; cbn.
  { split; constructor. }
  destruct (new_state H (type dev) ordered) as [v|x]; cbn.
  2:{ split; constructor. }
  destruct (IH (S i)) as [Hs Hb].
  destruct (update_devices H ordered devs (S i)) as [[rest' tks] r].
  cbn in *.
  assert (Forall (λ j, (i ≤ j < i + S (length devs))%nat) tks) as Hb'.
  { eapply Forall_impl; [exact Hb|]. cbn. lia. }
  destruct (py_ne v (_state dev)); cbn; [|done].
  split.
  - constructor; [done|]. eapply Forall_impl; [exact Hb|]. cbn. lia.
  - constructor; [lia|done].
Qed.

(** What the loop did to the device at position [k], whether or not the
    loop ran to its end. *)
Lemma update_devices_frame ordered devs i devs' tks r k dev :
  update_devices H ordered devs i = (devs', tks, r) →
  devs !! k = Some dev →
  ((i + k)%nat ∈ tks →
     ∃ v, new_state H (type dev) ordered = Ok v ∧
          py_ne v (_state dev) = true ∧
          devs' !! k = Some (set_state dev v)) ∧
  ((i + k)%nat ∉ tks → devs' !! k = Some dev).
Proof.
  revert i devs' tks r k. induction devs as [|d devs IH]; intros i devs' tks r k.
  { by intros _ ?. }
  cbn [update_devices].
  destruct (new_state H (type d) ordered) as [v|x] eqn:Hn.
  2:{ intros [= <- <- <-] Hk. split; [|done]. by intros ?%elem_of_nil. }
  destruct (update_devices H ordered devs (S i)) as [[rest' tks'] r'] eqn:Hu.
  pose proof (update_devices_tasks_ge _ _ _ _ _ _ _ Hu) as Hge.
  destruct k as [|k]; cbn [lookup list_lookup].
  - replace (i + 0)%nat with i by lia. intros Hr [= ->].
    destruct (py_ne v (_state dev)) eqn:Hne; inversion Hr; subst.
    + split; [by exists v|]. intros Hi. exfalso. apply Hi, elem_of_cons. by left.
    + split; [|done]. intros Hi%Hge. lia.
  - replace (i + S k)%nat with (S i + k)%nat by lia. intros Hr Hk.
    destruct (IH _ _ _ _ _ Hu Hk) as [Hin Hout].
    destruct (py_ne v (_state d)); inversion Hr; subst; [|done].
    split.
    + intros [?|?]%elem_of_cons; [lia|by apply Hin].
    + intros Hni. apply Hout. intros ?. apply Hni, elem_of_cons. by right.
Qed.

(** Where an interrupted loop stopped. *)
Lemma update_devices_interrupted ordered devs i devs' tks x :
  update_devices H ordered devs i = (devs', tks, Some x) →
  ∃ k dev,
    devs !! k = Some dev ∧
    new_state H (type dev) ordered = Raise x ∧
    (∀ j, (k ≤ j)%nat → devs' !! j = devs !! j) ∧
    Forall (λ j, (j < i + k)%nat) tks.
Proof.
  revert i devs' tks. induction devs as [|d devs IH]; intros i devs' tks.
  { done. }
  cbn [update_devices].
  destruct (new_state H (type d) ordered) as [v|y] eqn:Hn.
  2:{ intros [= <- <- <-]. exists 0%nat, d. by repeat split. }
  destruct (update_devices H ordered devs (S i)) as [[rest' tks'] r'] eqn:Hu.
  intros Hr.
  assert (r' = Some x) as -> by (destruct (py_ne v (_state d)); by inversion Hr).
  destruct (IH _ _ _ Hu) as (k & dev & Hk & Hx & Hafter & Hbefore).
  exists (S k), dev.
  assert (Forall (λ j, (j < i + S k)%nat) tks') as Hb.
  { eapply Forall_impl; [exact Hbefore|]. cbn. lia. }
  destruct (py_ne v (_state d)); inversion Hr; subst; repeat split; try done.
  - intros [|j] Hj; [lia|]. cbn. apply Hafter. lia.
  - constructor; [lia|done].
  - intros [|j] Hj; [lia|]. cbn. apply Hafter. lia.
Qed.

(** Running the loop again over what it produced changes nothing, as long
    as each new state equals itself. *)
Lemma update_devices_again ordered devs i devs' tks :
  update_devices H ordered devs i = (devs', tks, None) →
  (∀ dev v, dev ∈ devs → new_state H (type dev) ordered = Ok v →
            py_eqb v v = true) →
  update_devices H ordered devs' i = (devs', [], None).
Proof.
  revert i devs' tks. induction devs as [|d devs IH]; intros i devs' tks.
  { by intros [= <- <-]. }
  cbn [update_devices].
  destruct (new_state H (type d) ordered) as [v|y] eqn:Hn; [|done].
  destruct (update_devices H ordered devs (S i)) as [[rest' tks'] r'] eqn:Hu.
  intros Hr Hrefl.
  assert (r' = None) as -> by (destruct (py_ne v (_state d)); by inversion Hr).
  assert (update_devices H ordered rest' (S i) = (rest', [], None)) as Hrest.
  { eapply IH; [done|]. intros dev w Hdev. apply Hrefl, elem_of_cons. by right. }
  assert (py_eqb v v = true) as Hv.
  { apply (Hrefl d); [|done]. apply elem_of_cons. by left. }
  destruct (py_ne v (_state d)) eqn:Hne; inversion Hr; subst; cbn.
  - rewrite Hn, Hrest. unfold py_ne. cbn. by rewrite Hv.
  - by rewrite Hn, Hrest, Hne.
Qed.

End DevicesMore.

(** ** Further properties of a whole call *)

Section CallMore.
Variable H : host.

Lemma parse_response_forecast s txt :
  _forecast (parse_response H s txt).1 = _forecast s.
Proof.
  unfold parse_response.
  destruct (_ ≫= _) as [wd|x]; [|done].
  by destruct (extract_nextrun H wd).
Qed.

Lemma refresh_return s e o :
  refresh H s e = Return o →
  tasks o = [] ∧ devices (self o) = devices s ∧ _forecast (self o) = _forecast s.
Proof.
  unfold refresh.
  destruct (needs_fetch s e) as [[|]|]; try by intros [= <-].
  destruct (fetch_text e) as [[txt|]|x]; try by intros [= <-].
  - pose proof (parse_response_devices H s txt) as Hd.
    pose proof (parse_response_forecast s txt) as Hf.
    destruct (parse_response H s txt) as [s1 [u|x]]; [done|]. cbn in *.
    by destruct (caught_parse x); intros [= <-].
  - by destruct (caught_fetch x); intros [= <-].
Qed.

Lemma refresh_proceed_forecast s e s' :
  refresh H s e = Proceed s' → _forecast s' = _forecast s.
Proof.
  unfold refresh.
  destruct (needs_fetch s e) as [[|]|]; try done; [|by intros [= <-]].
  destruct (fetch_text e) as [[txt|]|x]; try done.
  - pose proof (parse_response_forecast s txt) as Hf.
    destruct (parse_response H s txt) as [s1 [u|x]]; cbn in *.
    + by intros [= <-].
    + by destruct (caught_parse x).
  - by destruct (caught_fetch x).
Qed.

(** A call either leaves the devices alone, or it is the device loop run
    over a non-empty [ordered_entries]. *)
Lemma async_update_shape s e :
  let out := async_update H s e in
  (tasks out = [] ∧ devices (self out) = devices s ∧
   _forecast (self out) = _forecast s) ∨
  (∃ s' ordered,
     refresh H s e = Proceed s' ∧
     ordered_entries H s' (utcnow_now e) = Ok ordered ∧ ordered ≠ [] ∧
     _forecast (self out) = _forecast s ∧
     update_devices H ordered (devices s) 0
     = (devices (self out), tasks out, raised out)).
Proof.
  cbv zeta. unfold async_update.
  destruct (refresh H s e) as [s'|o] eqn:Hr.
  2:{ left. by apply refresh_return in Hr. }
  pose proof (refresh_proceed_devices H _ _ _ Hr) as Hd.
  pose proof (refresh_proceed_forecast _ _ _ Hr) as Hf.
  unfold select_stage.
  destruct (ordered_entries H s' (utcnow_now e)) as [[|x l]|y] eqn:Ho; cbn.
  - by left.
  - right. exists s', (x :: l). rewrite <- Hd.
    destruct (update_devices H (x :: l) (devices s') 0) as [[devs tks] r].
    by cbn.
  - by left.
Qed.

(** X7. Whatever happens in a call, it changes nothing of a sensor but its
    state: the devices stay the same in number and order, each with its
    name, type and unit, and the forecast offset is kept. *)
Theorem call_changes_states_only s e :
  let out := async_update H s e in
  _forecast (self out) = _forecast s ∧
  Forall2 same_sensor (devices s) (devices (self out)).
Proof.
  cbv zeta.
  destruct (async_update_shape s e) as [(_ & -> & Hf) | (s' & ordered & _ & _ & _ & Hf & Hu)].
  - split; [done|]. apply Forall2_same_length_lookup_2; [done|].
    intros k d d' -> [= ->]. apply same_sensor_refl.
  - split; [done|].
    pose proof (update_devices_same_sensors H ordered (devices s) 0) as Hs.
    by rewrite Hu in Hs.
Qed.

(** X8. The update tasks of a call are positions of devices in strictly
    increasing order: no device gets two tasks in one call. *)
Theorem at_most_one_task_per_device s e :
  let out := async_update H s e in
  StronglySorted lt (tasks out) ∧
  Forall (λ k, (k < length (devices s))%nat) (tasks out).
Proof.
  cbv zeta.
  destruct (async_update_shape s e) as [(-> & _) | (s' & ordered & _ & _ & _ & _ & Hu)].
  - split; constructor.
  - pose proof (update_devices_tasks_increasing H ordered (devices s) 0) as [Hs Hb].
    rewrite Hu in Hs, Hb. cbn in *. split; [done|].
    eapply Forall_impl; [exact Hb|]. cbn. lia.
Qed.

(** X9. In every call, also one that an exception interrupts, a device has
    an update task exactly when its state was replaced by a new state that
    differs from the old one; a device without a task is as it was. *)
Theorem task_iff_state_replaced s e k :
  let out := async_update H s e in
  (k ∈ tasks out →
     ∃ dev v, devices s !! k = Some dev ∧ py_ne v (_state dev) = true ∧
              devices (self out) !! k = Some (set_state dev v)) ∧
  (k ∉ tasks out → devices (self out) !! k = devices s !! k).
Proof.
  cbv zeta.
  destruct (async_update_shape s e) as [(-> & -> & _) | (s' & ordered & _ & _ & _ & _ & Hu)].
  { split; [|done]. by intros ?%elem_of_nil. }
  pose proof (update_devices_same_sensors H ordered (devices s) 0) as Hs.
  rewrite Hu in Hs. cbn in Hs.
  pose proof (update_devices_tasks_increasing H ordered (devices s) 0) as [_ Hb].
  rewrite Hu in Hb. cbn in Hb. rewrite Forall_forall in Hb.
  destruct (devices s !! k) as [dev|] eqn:Hk.
  - destruct (update_devices_frame H _ _ _ _ _ _ _ _ Hu Hk) as [Hin Hout].
    cbn in Hin, Hout. split; [|done].
    intros (v & _ & Hne & Hlk)%Hin. by exists dev, v.
  - split.
    + intros Hin%Hb. apply lookup_ge_None in Hk. lia.
    + intros _. apply lookup_ge_None. apply lookup_ge_None in Hk.
      by rewrite <- (Forall2_length _ _ _ Hs).
Qed.

(** X10. When the scan of some device raises, the exception escapes, the
    devices before it keep the states the loop already gave them, and that
    device and all after it are untouched. *)
Theorem interrupted_loop_keeps_earlier_updates s e s' ordered x :
  refresh H s e = Proceed s' →
  ordered_entries H s' (utcnow_now e) = Ok ordered →
  raised (async_update H s e) = Some x →
  let out := async_update H s e in
  ∃ k dev,
    devices s !! k = Some dev ∧
    new_state H (type dev) ordered = Raise x ∧
    (∀ j, (k ≤ j)%nat → devices (self out) !! j = devices s !! j) ∧
    Forall (λ j, (j < k)%nat) (tasks out).
Proof.
  intros Hr Ho Hx. cbv zeta. revert Hx.
  unfold async_update. rewrite Hr. unfold select_stage. rewrite Ho.
  rewrite <- (refresh_proceed_devices H _ _ _ Hr).
  destruct ordered as [|y l]; [done|].
  destruct (update_devices H (y :: l) (devices s') 0) as [[devs tks] r] eqn:Hu.
  cbn. intros ->.
  by apply update_devices_interrupted in Hu.
Qed.

(** X11. A selection that has run to its end leaves nothing to do: run
    again at the same instant on the same document it creates no task and
    changes no state, provided each new state equals itself (as every value
    but a NaN float does). *)
Theorem repeated_selection_is_silent s now ordered :
  ordered_entries H s now = Ok ordered →
  raised (select_stage H s now) = None →
  (∀ dev v, dev ∈ devices s → new_state H (type dev) ordered = Ok v →
            py_eqb v v = true) →
  let out := select_stage H s now in
  select_stage H (self out) now
  = {| self := self out; timers := []; tasks := []; raised := None |}.
Proof.
  intros Ho Hx Hrefl. cbv zeta. revert Hx.
  unfold select_stage. rewrite Ho.
  destruct ordered as [|y l]; [intros _; cbn; by rewrite Ho|].
  destruct (update_devices H (y :: l) (devices s) 0) as [[devs tks] r] eqn:Hu.
  cbn [self raised]. intros ->.
  change (ordered_entries H (set_devices s devs) now)
    with (ordered_entries H s now).
  rewrite Ho. cbn [devices set_devices].
  by rewrite (update_devices_again H _ _ _ _ _ Hu Hrefl).
Qed.

End CallMore.

(** ** Further properties of the selection *)

Section SelectionMore.
Variable H : host.

(** One turn of the loop of lines 212 to 223, in terms of the two bounds. *)
Lemma collect_cons now ft te rest :
  collect H now ft (te :: rest) =
  valid_from ← valid_from_of H te;
  valid_to ← valid_to_of H te;
  passed ← now_ge now valid_to;
  if (passed : bool) then collect H now ft rest
  else
    dist ← average_dist valid_from valid_to ft;
    tl ← collect H now ft rest;
    mret ((dist, te) :: tl).
Proof.
  cbn [collect]. unfold valid_from_of, valid_to_of.
  destruct (getitem te "@from") as [f|]; [|done]. cbn.
  destruct (parse_datetime H f) as [vf|]; [|done]. cbn.
  destruct (getitem te "@to") as [t|]; [|done]. cbn.
  by destruct (parse_datetime H t).
Qed.

Lemma collect_returns now ft entries :
  Forall (aware_bounds H) entries →
  ∃ retained, collect H now ft entries = Ok retained.
Proof.
  induction 1 as [|te entries (t_from & t_to & Hf & Ht) _ [tl IH]].
  { by exists []. }
  rewrite collect_cons, Hf, Ht. cbn.
  destruct (t_to <=? now); [by exists tl|].
  rewrite IH. cbn. by eexists.
Qed.

Lemma collect_complete now ft entries retained e t :
  collect H now ft entries = Ok retained →
  e ∈ entries →
  valid_to_of H e = Ok (Some (Aware t)) →
  now < t →
  ∃ q, (q, e) ∈ retained.
Proof.
  intros Hc He Ht Hlt. revert retained Hc.
  induction He as [e entries|e te entries He IH]; intros retained;
    rewrite collect_cons.
  - rewrite Ht.
    destruct (valid_from_of H e) as [vf|]; [|done]. cbn -[average_dist collect].
    destruct (Z.leb_spec t now); [lia|].
    destruct (average_dist vf (Some (Aware t)) ft) as [d|]; [|done]. cbn -[average_dist collect].
    destruct (collect H now ft entries) as [tl|]; [|done]. cbn -[average_dist collect].
    intros [= <-]. exists d. apply elem_of_cons. by left.
  - destruct (valid_from_of H te) as [vf|]; [|done]. cbn -[average_dist collect].
    destruct (valid_to_of H te) as [vt|]; [|done]. cbn -[average_dist collect].
    destruct (now_ge now vt) as [[|]|]; cbn -[average_dist collect]; try done.
    + by apply IH.
    + destruct (average_dist vf vt ft) as [d|]; [|done]. cbn -[average_dist collect].
      destruct (collect H now ft entries) as [tl|] eqn:Hc; [|done]. cbn -[average_dist collect].
      intros [= <-]. destruct (IH Ht tl eq_refl) as [q Hq].
      exists q. apply elem_of_cons. by right.
Qed.

(** A bound that does not parse to an aware instant stops the loop with
    [TypeError], wherever the entry stands. *)
Lemma collect_bad_bound now ft entries :
  Forall (readable_bounds H) entries →
  Exists (λ e, ∀ t, valid_to_of H e ≠ Ok (Some (Aware t))) entries →
  collect H now ft entries = Raise TypeError.
Proof.
  induction 1 as [|te entries (vf & vt & Hf & Ht) _ IH]; intros Hex.
  { by apply Exists_nil in Hex. }
  rewrite collect_cons, Hf, Ht. cbn.
  destruct vt as [[t_to|]|]; cbn; try done.
  apply Exists_cons in Hex as [Hbad|Hex]; [by destruct (Hbad t_to)|].
  rewrite (IH Hex).
  destruct (t_to <=? now); [done|].
  by destruct vf as [[t_from|]|].
Qed.

Lemma selected_entry_split ty ordered e :
  selected_entry ty ordered = Ok (Some e) →
  ∃ skipped q rest,
    ordered = skipped ++ (q, e) :: rest ∧
    forallb (lacks ty) skipped = true ∧ has_variable ty e.
Proof.
  induction ordered as [|[q0 te] ordered IH]; [done|]. cbn.
  destruct (getitem te "location") as [loc|] eqn:Hl; [|done]. cbn.
  destruct (contains ty loc) as [[|]|] eqn:Hc; cbn; try done.
  - intros [= ->]. exists [], q0, ordered. repeat split. by exists loc.
  - intros (skipped & q & rest & -> & Hs & Hv)%IH.
    exists ((q0, te) :: skipped), q, rest. repeat split; [|done].
    cbn. rewrite Hs. unfold lacks. cbn. by rewrite Hl, Hc.
Qed.

Lemma lacks_not_has ty q e :
  lacks ty (q, e) = true → ¬ has_variable ty e.
Proof.
  intros (loc & Hl & Hc)%lacks_inv (loc' & Hl' & Hc'). congruence.
Qed.

(** X12. The entry a device's value is taken from is a closest one by
    the score the code computes: no retained entry that has the device's
    variable has a smaller score, as doubles compare. *)
Theorem selected_entry_is_closest s now ordered ty e :
  ordered_entries H s now = Ok ordered →
  selected_entry ty ordered = Ok (Some e) →
  ∃ q, (q, e) ∈ ordered ∧ has_variable ty e ∧
       ∀ q' e', (q', e') ∈ ordered → has_variable ty e' →
                double_le q q' = true.
Proof.
  intros (entries & retained & _ & Hc & Hord)%ordered_entries_inv Hsel.
  pose proof (collect_numbers H _ _ _ _ Hc) as Hnum.
  pose proof (sort_by_key_sorted retained Hnum) as Hsorted.
  rewrite <- (sort_by_key_perm retained), <- Hord in Hnum.
  rewrite <- Hord in Hsorted.
  apply selected_entry_split in Hsel as (skipped & q & rest & -> & Hsk & Hv).
  exists q. split; [|split; [done|]].
  { apply elem_of_app. right. apply elem_of_cons. by left. }
  intros q' e' Hin Hv'.
  apply elem_of_app in Hin as [Hin|Hin].
  - exfalso. rewrite forallb_forall in Hsk.
    apply list_elem_of_In, Hsk in Hin. by apply lacks_not_has in Hin.
  - apply elem_of_cons in Hin as [[= -> ->]|Hin].
    { apply double_le_refl. rewrite Forall_forall in Hnum.
      apply (Hnum (q, e)), elem_of_app. right. apply elem_of_cons. by left. }
    clear Hsk Hord Hnum. induction skipped as [|y skipped IH].
    + cbn in Hsorted. apply StronglySorted_inv in Hsorted as [_ Hall].
      rewrite Forall_forall in Hall. by apply (Hall (q', e')).
    + apply IH. cbn in Hsorted. by inversion Hsorted.
Qed.

(** X13. On a document whose time entries all have aware bounds the
    collection returns, and the retained entries are exactly the entries
    of the document whose [@to] bound is later than [now]. *)
Theorem retained_are_exactly_the_unexpired s now entries :
  time_entries s = Ok entries →
  Forall (aware_bounds H) entries →
  ∃ ordered,
    ordered_entries H s now = Ok ordered ∧
    ∀ e, (∃ q, (q, e) ∈ ordered) ↔
         (e ∈ entries ∧
          ∃ t, valid_to_of H e = Ok (Some (Aware t)) ∧ now < t).
Proof.
  intros Ht Haware.
  destruct (collect_returns now (forecast_time s now) entries Haware)
    as [retained Hc].
  exists (sort_by_key retained). split.
  { unfold ordered_entries. rewrite Ht. cbn. by rewrite Hc. }
  intros e. setoid_rewrite sort_by_key_perm.
  pose proof (collect_scored _ _ _ _ _ Hc) as [Hsc Hsub].
  split.
  - intros [q Hq]. split.
    + eapply elem_of_sublist; [|exact Hsub].
      apply (list_elem_of_fmap_2 snd) in Hq. exact Hq.
    + rewrite Forall_forall in Hsc.
      destruct (Hsc _ Hq) as (_ & t & _ & ? & ? & _). by exists t.
  - intros [He (t & Hto & Hlt)]. by eapply collect_complete.
Qed.

(** X14. One time entry whose [@to] does not parse to an aware instant
    makes the whole selection raise [TypeError], even if that entry would
    have been discarded: no device changes and no task is created. *)
Theorem one_bad_bound_aborts_the_selection s now entries :
  time_entries s = Ok entries →
  Forall (readable_bounds H) entries →
  Exists (λ e, ∀ t, valid_to_of H e ≠ Ok (Some (Aware t))) entries →
  select_stage H s now = propagate s TypeError.
Proof.
  intros Ht Hr Hex. unfold select_stage, ordered_entries. rewrite Ht. cbn.
  by rewrite (collect_bad_bound _ _ _ Hr Hex).
Qed.

End SelectionMore.

(** ** Further properties of the refresh, continued *)

Section RefreshDocument.
Variable H : host.

(** [nxt.minute] in terms of the minute at which [try_again] runs. *)
Lemma minute_of_quarter_later t :
  minute_of (t + timedelta_minutes 15) = (minute_of t + 15) mod 60.
Proof.
  unfold minute_of, timedelta_minutes, us_per_second.
  replace (t + 15 * 60 * 1000000) with (t + 15 * (60 * 1000000)) by lia.
  rewrite Z.div_add by lia.
  by rewrite Zplus_mod_idemp_l.
Qed.

(** X15. A failure is retried exactly when it happens before minute 45 of
    the hour: from minute 45 on, [nxt] falls into the first quarter of the
    next hour and no timer is armed. *)
Theorem failure_retried_iff_before_minute_45 s e :
  failure H s e →
  (timers (async_update H s e) ≠ [] ↔ minute_of (utcnow_retry e) < 45).
Proof.
  intros (s' & -> & _)%failure_retry. unfold retry, try_again. cbn.
  rewrite minute_of_quarter_later.
  assert (0 ≤ minute_of (utcnow_retry e) < 60) as Hm
    by (unfold minute_of; apply Z.mod_pos_bound; lia).
  destruct (Z.leb_spec 15 ((minute_of (utcnow_retry e) + 15) mod 60)) as [Hle|Hlt].
  - split; [|done]. intros _.
    destruct (Z.lt_ge_cases (minute_of (utcnow_retry e)) 45) as [|Hge]; [done|].
    exfalso. revert Hle.
    replace (minute_of (utcnow_retry e) + 15)
      with ((minute_of (utcnow_retry e) - 45) + 1 * 60) by lia.
    rewrite Z.mod_add, Z.mod_small by lia. lia.
  - split; [done|]. intros Hlt45. exfalso. revert Hlt.
    rewrite Z.mod_small by lia. lia.
Qed.

(** X16. After a fetch and parse that succeed, the outcome owes nothing to
    the document held before: the call is the selection on the object with
    the new [weatherdata] and the new [_nextrun], whatever [data] was. *)
Theorem successful_refresh_selects_from_the_new_document s e txt doc wd n old :
  needs_fetch s e = Ok true →
  fetch_text e = Ok (Some txt) →
  xmltodict_parse H txt = Ok doc →
  getitem doc "weatherdata" = Ok wd →
  extract_nextrun H wd = Ok n →
  async_update H s e
  = select_stage H (set_nextrun (set_data s wd) n) (utcnow_now e) ∧
  async_update H (set_data s old) e = async_update H s e.
Proof.
  intros Hg Hf Hp Hw Hn.
  assert (∀ s0, needs_fetch s0 e = Ok true →
            async_update H s0 e
            = select_stage H (set_nextrun (set_data s0 wd) n) (utcnow_now e))
    as Hrun.
  { intros s0 Hg0. unfold async_update, refresh, parse_response.
    rewrite Hg0, Hf, Hp. cbn. by rewrite Hw, Hn. }
  split; [by apply Hrun|].
  by rewrite (Hrun (set_data s old)), (Hrun s).
Qed.

Lemma existsb_str_in_dicts k l :
  Forall (λ v, ∃ d, v = PyDict d) l → existsb (py_eqb (PyStr k)) l = false.
Proof.
  induction 1 as [|v l [d ->] _ IH]; [done|]. cbn. exact IH.
Qed.

(** X17. When the document has several [model] elements, so that [model]
    is a list of dictionaries, the first one decides: [_nextrun] is read
    from its [@nextrun], and a first element without one raises [KeyError]
    although a later element may have it. *)
Theorem first_model_element_decides wd meta m others :
  getitem wd "meta" = Ok meta →
  getitem meta "model" = Ok (PyList (PyDict m :: others)) →
  Forall (λ v, ∃ d, v = PyDict d) others →
  extract_nextrun H wd =
  match dict_get m "@nextrun" with
  | Some v => parse_datetime H v
  | None => Raise KeyError
  end.
Proof.
  intros Hmeta Hmodel Hd. unfold extract_nextrun. rewrite Hmeta. cbn.
  rewrite Hmodel. cbn -[contains].
  assert (contains "@nextrun" (PyList (PyDict m :: others)) = Ok false) as ->.
  { unfold contains. rewrite existsb_str_in_dicts; [done|].
    constructor; [by exists m|done]. }
  cbn. by destruct (dict_get m "@nextrun").
Qed.

End RefreshDocument.

(** ** Properties of [async_setup_platform] *)

Section SetupProps.
Variable H : host.
Variable str_float : float → string.

Lemma YrSensor_init_known name ty :
  sensor_type_known ty = true →
  ∃ dev, YrSensor_init name ty = Ok dev ∧
         type dev = ty ∧ client_name dev = name ∧ _state dev = PyNone.
Proof.
  intros Hk%sensor_type_known_inv. cbn in Hk.
  repeat (apply elem_of_cons in Hk as [->|Hk]; [by eexists|]).
  by apply elem_of_nil in Hk.
Qed.

Lemma YrSensor_init_unknown name ty :
  sensor_type_known ty = false → YrSensor_init name ty = Raise KeyError.
Proof.
  unfold sensor_type_known, YrSensor_init. intros Hk.
  destruct (find _ SENSOR_TYPES) as [[k v]|] eqn:Hfind; [|done].
  apply find_some in Hfind as [Hin Heq].
  assert (existsb (λ e, String.eqb ty e.1) SENSOR_TYPES = true); [|congruence].
  apply existsb_exists. by exists (k, v).
Qed.

Lemma make_devices_known name tys :
  forallb sensor_type_known tys = true →
  ∃ devs, make_devices name tys = Ok devs ∧
          map type devs = tys ∧
          Forall (λ d, client_name d = name ∧ _state d = PyNone) devs.
Proof.
  induction tys as [|ty tys IH]; cbn [forallb make_devices].
  { exists []. by repeat constructor. }
  intros [Hty Htys]%andb_true_iff.
  destruct (YrSensor_init_known name ty Hty) as (dev & -> & <- & Hn & Hs).
  destruct (IH Htys) as (devs & -> & <- & Hall).
  exists (dev :: devs). cbn. repeat split. by constructor.
Qed.

Lemma make_devices_unknown name tys :
  forallb sensor_type_known tys = false →
  make_devices name tys = Raise KeyError.
Proof.
  induction tys as [|ty tys IH]; cbn [forallb make_devices]; [done|].
  destruct (sensor_type_known ty) eqn:Hty; cbn.
  - intros Htys. destruct (YrSensor_init_known name ty Hty) as (dev & -> & _).
    cbn. by rewrite (IH Htys).
  - intros _. by rewrite (YrSensor_init_unknown name ty Hty).
Qed.

Lemma randrange_bounds start stop r :
  start < stop → start ≤ randrange start stop r < stop.
Proof.
  intros Hlt. unfold randrange.
  pose proof (Z.mod_pos_bound r (stop - start)). lia.
Qed.

(** X18. The platform declines to set up, returning [False] before any
    sensor is created, registered or fetched for, exactly when the
    latitude or the longitude is given neither by the platform
    configuration nor by the Home Assistant configuration. *)
Theorem setup_declined_iff_coordinate_missing hass config r_minute r_second e :
  async_setup_platform H str_float hass config r_minute r_second e = SetupFalse
  ↔ (conf_latitude config = None ∧ hass_latitude hass = None) ∨
    (conf_longitude config = None ∧ hass_longitude hass = None).
Proof.
  unfold async_setup_platform.
  destruct (conf_latitude config), (hass_latitude hass),
    (conf_longitude config), (hass_longitude hass); cbn;
    try (split; [done|by intros [[??]|[??]]]);
    try (split; [intros _|done]; by (left + right));
    destruct (make_devices _ _); split; try done; by intros [[??]|[??]].
Qed.

(** X19. With both coordinates at hand and every monitored condition a
    known sensor type, the platform hands over one sensor per condition,
    in the order given, each named after the platform and without a state;
    registers the hourly callback at a minute from 1 to 9 and a second
    from 0 to 58; and runs a first update, which always goes to the
    network and changes nothing of the sensors but their states. *)
Theorem setup_adds_one_sensor_per_condition
    hass config r_minute r_second e lat lon :
  from_option Some (hass_latitude hass) (conf_latitude config) = Some lat →
  from_option Some (hass_longitude hass) (conf_longitude config) = Some lon →
  forallb sensor_type_known (conf_monitored_conditions config) = true →
  ∃ coordinates added minute second first,
    async_setup_platform H str_float hass config r_minute r_second e
    = SetupDone coordinates added minute second first ∧
    map type added = conf_monitored_conditions config ∧
    Forall (λ d, client_name d = conf_name config ∧ _state d = PyNone) added ∧
    1 ≤ minute ≤ 9 ∧ 0 ≤ second ≤ 58 ∧
    needs_fetch (YrData_init (conf_forecast config) added) e = Ok true ∧
    first = async_update H (YrData_init (conf_forecast config) added) e ∧
    Forall2 same_sensor added (devices (self first)).
Proof.
  intros Hlat Hlon Hk. unfold async_setup_platform. rewrite Hlat, Hlon.
  destruct (make_devices_known (conf_name config) _ Hk) as (devs & -> & Hty & Hall).
  do 5 eexists. split; [reflexivity|].
  pose proof (randrange_bounds 1 10 r_minute).
  pose proof (randrange_bounds 0 59 r_second).
  repeat split; try done; try lia.
  pose proof (async_update_shape H (YrData_init (conf_forecast config) devs) e)
    as [(_ & Hd & _) | (s' & ordered & _ & _ & _ & _ & Hu)].
  - rewrite Hd. cbn. apply Forall2_same_length_lookup_2; [done|].
    intros k d d' -> [= ->]. apply same_sensor_refl.
  - pose proof (update_devices_same_sensors H ordered devs 0) as Hs.
    cbn in Hu. by rewrite Hu in Hs.
Qed.

(** X20. With both coordinates at hand, a monitored condition outside
    [SENSOR_TYPES] makes the set-up raise [KeyError] before any sensor is
    handed over, any callback registered or any request made. *)
Theorem setup_with_unknown_condition_raises
    hass config r_minute r_second e lat lon :
  from_option Some (hass_latitude hass) (conf_latitude config) = Some lat →
  from_option Some (hass_longitude hass) (conf_longitude config) = Some lon →
  forallb sensor_type_known (conf_monitored_conditions config) = false →
  async_setup_platform H str_float hass config r_minute r_second e
  = SetupRaise KeyError.
Proof.
  intros Hlat Hlon Hk. unfold async_setup_platform. rewrite Hlat, Hlon.
  by rewrite (make_devices_unknown _ _ Hk).
Qed.

End SetupProps.

(** ** Properties across set-up, scoring and document shape *)

Section Across.
Variable H : host.

(** X21. A retry timer never falls in the minute of the hourly callback:
    the callback is registered at a minute from 1 to 9, a retry is armed
    only for a minute of at least 15. *)
Theorem retry_never_in_the_minute_of_the_hourly_callback s e r_minute t :
  t ∈ timers (async_update H s e) →
  minute_of t ≠ randrange 1 10 r_minute.
Proof.
  intros Ht.
  destruct (timers_of_a_call H s e) as (_ & Heq & Hmin).
  { intros Hnil. rewrite Hnil in Ht. by apply elem_of_nil in Ht. }
  rewrite Heq in Ht. apply list_elem_of_singleton in Ht as ->.
  pose proof (randrange_bounds 1 10 r_minute). lia.
Qed.

(** X23. When [time] is not a list but a single, non-empty dictionary, the
    loop iterates over its keys, the subscript [time_entry['@from']] of a
    string raises [TypeError], and the call ends there with every device
    as it was. *)
Theorem single_time_element_raises_type_error s now product kv d :
  getitem (data s) "product" = Ok product →
  getitem product "time" = Ok (PyDict (kv :: d)) →
  select_stage H s now = propagate s TypeError.
Proof.
  intros Hp Ht. unfold select_stage, ordered_entries, time_entries.
  rewrite Hp. cbn. by rewrite Ht.
Qed.

End Across.

(** ** The further properties at work *)

Lemma forecast_not_due_skips_the_fetch_witness :
  let e := at_nine 30 (Raise ClientError) in
  let e' := at_nine 30 (ok_response "<no_model/>") in
  let out := async_update demo_host loaded e in
  async_update demo_host loaded e' = out ∧
  out = select_stage demo_host loaded (utcnow_now e) ∧
  data (self out) = data loaded ∧ _nextrun (self out) = _nextrun loaded ∧
  timers out = [].
Proof.
  apply (forecast_not_due_skips_the_fetch demo_host loaded
           (at_nine 30 (Raise ClientError))
           (at_nine 30 (ok_response "<no_model/>")) (clock 12 0)).
  - reflexivity.
  - reflexivity.
  - split; reflexivity.
Defined.

Lemma failed_fetch_keeps_the_document_witness :
  let e := at_nine 30 (Ok {| status := 503; url := "https://api.met.no/";
                             text := Ok "<morning/>" |}) in
  let out := async_update demo_host due e in
  self out = set_nextrun due None ∧ tasks out = [] ∧ raised out = None.
Proof.
  apply (failed_fetch_keeps_the_document demo_host due).
  - reflexivity.
  - left. eexists. split; [reflexivity|]. cbn. lia.
Defined.

Lemma unnamed_exception_escapes_without_retry_witness :
  let out := async_update demo_host loaded
               {| utcnow_gate := clock 12 30; http_get := Raise ValueError;
                  utcnow_retry := clock 12 30; utcnow_now := clock 12 30 |} in
  raised out = Some ValueError ∧ timers out = [] ∧ tasks out = [] ∧
  _nextrun (self out) = _nextrun loaded ∧ devices (self out) = devices loaded.
Proof.
  apply (unnamed_exception_escapes_without_retry demo_host loaded
           {| utcnow_gate := clock 12 30; http_get := Raise ValueError;
              utcnow_retry := clock 12 30; utcnow_now := clock 12 30 |}
           ValueError).
  - reflexivity.
  - left. split; reflexivity.
Defined.

Lemma missing_weatherdata_raises_key_error_witness :
  let out := async_update more_host due (at_nine 30 (ok_response "<error/>")) in
  raised out = Some KeyError ∧ self out = due ∧ timers out = [] ∧ tasks out = [].
Proof.
  apply (missing_weatherdata_raises_key_error more_host due
           (at_nine 30 (ok_response "<error/>")) "<error/>" error_body);
    reflexivity.
Defined.

Lemma timer_armed_only_by_a_failure_witness :
  let e := at_nine 30 (Raise ClientError) in
  failure demo_host due e ∧
  timers (async_update demo_host due e)
  = [utcnow_retry e + timedelta_minutes 15] ∧
  15 ≤ minute_of (utcnow_retry e + timedelta_minutes 15).
Proof.
  apply (timer_armed_only_by_a_failure demo_host due
           (at_nine 30 (Raise ClientError))).
  vm_compute. discriminate.
Defined.

Lemma document_of_a_failed_refresh_is_never_used_witness :
  let e := at_nine 30 (ok_response "<no_model/>") in
  let e' := at_nine 45 (ok_response "<morning/>") in
  needs_fetch (self (async_update demo_host due e)) e' = Ok true ∧
  ∃ txt doc,
    fetch_text e' = Ok (Some txt) ∧
    xmltodict_parse demo_host txt = Ok doc ∧
    getitem doc "weatherdata" = Ok (data loaded).
Proof.
  apply (document_of_a_failed_refresh_is_never_used demo_host due
           (at_nine 30 (ok_response "<no_model/>"))
           (at_nine 45 (ok_response "<morning/>")) loaded).
  - apply (failure_parse demo_host due _ "<no_model/>" IndexError);
      reflexivity.
  - reflexivity.
Defined.

Lemma interrupted_loop_keeps_earlier_updates_witness :
  let s := loaded_with morning_north in
  let e := at_nine 30 (Raise ClientError) in
  let out := async_update more_host s e in
  ∃ k dev,
    devices s !! k = Some dev ∧
    new_state more_host (type dev) (north_ordered more_host)
    = Raise ValueError ∧
    (∀ j, (k ≤ j)%nat → devices (self out) !! j = devices s !! j) ∧
    Forall (λ j, (j < k)%nat) (tasks out).
Proof.
  apply (interrupted_loop_keeps_earlier_updates more_host
           (loaded_with morning_north) (at_nine 30 (Raise ClientError))
           (loaded_with morning_north)); reflexivity.
Defined.

Lemma repeated_selection_is_silent_witness :
  let out := select_stage demo_host loaded (clock 9 30) in
  select_stage demo_host (self out) (clock 9 30)
  = {| self := self out; timers := []; tasks := []; raised := None |}.
Proof.
  apply (repeated_selection_is_silent demo_host loaded (clock 9 30)
           morning_ordered); [reflexivity|reflexivity|].
  intros dev v Hdev.
  repeat (apply elem_of_cons in Hdev as [->|Hdev];
          [vm_compute; by intros [= <-]|]).
  by apply elem_of_nil in Hdev.
Defined.

Lemma selected_entry_is_closest_witness :
  ∃ q, (q, entry_temp) ∈ morning_ordered ∧
       has_variable "temperature" entry_temp ∧
       ∀ q' e', (q', e') ∈ morning_ordered →
                has_variable "temperature" e' → double_le q q' = true.
Proof.
  apply (selected_entry_is_closest demo_host loaded (clock 9 30)
           morning_ordered "temperature" entry_temp); reflexivity.
Defined.

Lemma morning_aware_bounds :
  Forall (aware_bounds demo_host)
    [entry_passed; entry_later; entry_temp; entry_wind].
Proof. repeat constructor; do 2 eexists; split; reflexivity. Qed.

Lemma retained_are_exactly_the_unexpired_witness :
  ∃ ordered,
    ordered_entries demo_host loaded (clock 9 30) = Ok ordered ∧
    ∀ e, (∃ q, (q, e) ∈ ordered) ↔
         (e ∈ [entry_passed; entry_later; entry_temp; entry_wind] ∧
          ∃ t, valid_to_of demo_host e = Ok (Some (Aware t)) ∧ clock 9 30 < t).
Proof.
  apply (retained_are_exactly_the_unexpired demo_host loaded (clock 9 30)
           [entry_passed; entry_later; entry_temp; entry_wind]).
  - reflexivity.
  - apply morning_aware_bounds.
Defined.

Lemma one_bad_bound_aborts_the_selection_witness :
  select_stage demo_host (loaded_with morning_unbounded) (clock 9 30)
  = propagate (loaded_with morning_unbounded) TypeError.
Proof.
  apply (one_bad_bound_aborts_the_selection demo_host
           (loaded_with morning_unbounded) (clock 9 30)
           [entry_passed; entry_unbounded]).
  - reflexivity.
  - repeat constructor; do 2 eexists; split; reflexivity.
  - apply Exists_cons. right. apply Exists_cons. left.
    intros t. vm_compute. discriminate.
Defined.

Lemma failure_retried_iff_before_minute_45_witness :
  let e := at_nine 50 (Raise ClientError) in
  timers (async_update demo_host due e) ≠ [] ↔ minute_of (utcnow_retry e) < 45.
Proof.
  apply (failure_retried_iff_before_minute_45 demo_host due
           (at_nine 50 (Raise ClientError))).
  apply (failure_fetch demo_host due _ ClientError); reflexivity.
Defined.

Lemma successful_refresh_selects_from_the_new_document_witness :
  let e := at_nine 30 (ok_response "<morning/>") in
  async_update demo_host due e
  = select_stage demo_host
      (set_nextrun (set_data due morning) (Some (Aware (clock 12 0))))
      (utcnow_now e) ∧
  async_update demo_host (set_data due no_model) e = async_update demo_host due e.
Proof.
  apply (successful_refresh_selects_from_the_new_document demo_host due
           (at_nine 30 (ok_response "<morning/>")) "<morning/>"
           (PyDict [("weatherdata", morning)]) morning
           (Some (Aware (clock 12 0))) no_model); reflexivity.
Defined.

Lemma first_model_element_decides_witness :
  extract_nextrun more_host two_models
  = match dict_get [("@nextrun", PyStr "12:00")] "@nextrun" with
    | Some v => parse_datetime more_host v
    | None => Raise KeyError
    end.
Proof.
  apply (first_model_element_decides more_host two_models
           (PyDict [("model", PyList [model_run "12:00"; model_run "18:00"])])
           [("@nextrun", PyStr "12:00")] [model_run "18:00"]).
  - reflexivity.
  - reflexivity.
  - repeat constructor. by eexists.
Defined.

Lemma setup_adds_one_sensor_per_condition_witness :
  let e := at_nine 30 (ok_response "<morning/>") in
  let config := yr_platform ["symbol"; "temperature"] in
  ∃ coordinates added minute second first,
    async_setup_platform more_host demo_str_float home config 17 59 e
    = SetupDone coordinates added minute second first ∧
    map type added = conf_monitored_conditions config ∧
    Forall (λ d, client_name d = conf_name config ∧ _state d = PyNone) added ∧
    1 ≤ minute ≤ 9 ∧ 0 ≤ second ≤ 58 ∧
    needs_fetch (YrData_init (conf_forecast config) added) e = Ok true ∧
    first = async_update more_host (YrData_init (conf_forecast config) added) e ∧
    Forall2 same_sensor added (devices (self first)).
Proof.
  apply (setup_adds_one_sensor_per_condition more_host demo_str_float home
           (yr_platform ["symbol"; "temperature"]) 17 59
           (at_nine 30 (ok_response "<morning/>"))
           59.875%float 10.75%float); reflexivity.
Defined.

Lemma setup_with_unknown_condition_raises_witness :
  async_setup_platform more_host demo_str_float home
    (yr_platform ["temperature"; "uvIndex"]) 17 59
    (at_nine 30 (ok_response "<morning/>"))
  = SetupRaise KeyError.
Proof.
  apply (setup_with_unknown_condition_raises more_host demo_str_float home
           (yr_platform ["temperature"; "uvIndex"]) 17 59
           (at_nine 30 (ok_response "<morning/>"))
           59.875%float 10.75%float); reflexivity.
Defined.

Lemma retry_never_in_the_minute_of_the_hourly_callback_witness :
  minute_of (clock 9 45) ≠ randrange 1 10 17.
Proof.
  apply (retry_never_in_the_minute_of_the_hourly_callback demo_host due
           (at_nine 30 (Raise ClientError)) 17 (clock 9 45)).
  vm_compute. apply elem_of_cons. by left.
Defined.

Lemma single_time_element_raises_type_error_witness :
  select_stage demo_host (loaded_with single_window) (clock 9 30)
  = propagate (loaded_with single_window) TypeError.
Proof.
  apply (single_time_element_raises_type_error demo_host
           (loaded_with single_window) (clock 9 30)
           (PyDict [("time", entry_temp)]) ("@from", PyStr "09:00")
           [("@to", PyStr "10:00");
            ("location",
             PyDict [("temperature", PyDict [("@value", PyStr "7")])])]);
    reflexivity.
Defined.

(** ** The document across a failed refresh *)

Section Deployed.
Variable H : host.
Hypothesis Hdeployed : deployed H.

Lemma xml_value_getitem v k w :
  xml_value v = true → is_attribute k = false → getitem v k = Ok w →
  xml_value w = true.
Proof.
  destruct v as [| | | |d]; try done. cbn [xml_value getitem].
  intros Hd Hk. induction d as [|[k' x] d IH]; [done|].
  cbn [forallb fst snd dict_get] in *.
  apply andb_true_iff in Hd as [Hx Hd].
  destruct (String.eqb_spec k k') as [<-|Hne].
  - rewrite Hk in Hx. by intros [= <-].
  - by apply IH.
Qed.

Lemma contains_raise k v x : contains k v = Raise x → caught_parse x = false.
Proof. destruct v; cbn; try done; by intros [= <-]. Qed.

(** [model[0]] raises [IndexError] on an empty list or string only. *)
Lemma getitem0_raise v x :
  xml_value v = true → getitem0 v = Raise x → caught_parse x = false.
Proof.
  destruct v as [|s| |l|d]; cbn; try by (intros _ [= <-]).
  - destruct s; [done|]. by cbn.
  - destruct l; [done|]. by cbn.
Qed.

(** On values of the parser's shape the reading of the model run raises no
    error that the second [try] catches. *)
Lemma extract_nextrun_raise wd x :
  xml_value wd = true → extract_nextrun H wd = Raise x →
  caught_parse x = false.
Proof.
  intros Hwd. unfold extract_nextrun.
  destruct (getitem wd "meta") as [meta|y] eqn:Hmeta; cbn;
    [|intros [= <-]; by eapply getitem_raise].
  pose proof (xml_value_getitem wd "meta" meta Hwd eq_refl Hmeta) as Hm.
  destruct (getitem meta "model") as [model|y] eqn:Hmodel; cbn;
    [|intros [= <-]; by eapply getitem_raise].
  pose proof (xml_value_getitem meta "model" model Hm eq_refl Hmodel) as Hmo.
  destruct (contains "@nextrun" model) as [has|y] eqn:Hc; cbn;
    [|intros [= <-]; by eapply contains_raise].
  assert (∀ model', (v ← getitem model' "@nextrun"; parse_datetime H v)
                    = Raise x → caught_parse x = false) as Hrest.
  { intros model'.
    destruct (getitem model' "@nextrun") as [v|y] eqn:Hv; cbn;
      [|intros [= <-]; by eapply getitem_raise].
    apply Hdeployed. }
  destruct has; cbn; [apply Hrest|].
  destruct (getitem0 model) as [model'|y] eqn:H0; cbn;
    [apply Hrest|intros [= <-]; by eapply getitem0_raise].
Qed.

(** The second [try] can only fail, in a way it catches, before [data] is
    assigned. *)
Lemma parse_response_caught s txt x :
  (parse_response H s txt).2 = Raise x → caught_parse x = true →
  data (parse_response H s txt).1 = data s.
Proof.
  unfold parse_response.
  destruct (xmltodict_parse H txt) as [doc|y] eqn:Hp;
    cbn -[getitem extract_nextrun]; [|done].
  destruct (getitem doc "weatherdata") as [wd|y] eqn:Hw;
    cbn -[getitem extract_nextrun]; [|done].
  assert (xml_value wd = true) as Hwd.
  { apply (xml_value_getitem doc "weatherdata" wd); [|done|done].
    by apply (proj1 Hdeployed txt). }
  destruct (extract_nextrun H wd) as [n|y] eqn:Hn; cbn; [done|].
  intros [= ->] Hx. apply extract_nextrun_raise in Hn; [congruence|done].
Qed.

End Deployed.


Lemma more_host_deployed : deployed more_host.
Proof.
  split.
  - intros txt doc. cbn [xmltodict_parse more_host table_host table_get].
    destruct (String.eqb txt "<morning/>"); [intros [= <-]; vm_compute; reflexivity|].
    destruct (String.eqb txt "<error/>"); [intros [= <-]; vm_compute; reflexivity|].
    destruct (String.eqb txt "<two_models/>"); [intros [= <-]; vm_compute; reflexivity|].
    done.
  - intros v x. cbn. destruct v; first [by intros [= <-] | done].
Qed.


(** Doubles order what exact arithmetic would leave tied.  Three
    microseconds past 09:30 the window from 10:00 to 12:00 and the instant
    11:00 are both 10799.999994 s away in exact terms; as doubles the first
    scores 10799.999994000002 and the second 10799.999994, so the second,
    although later in the document, is sorted first and gives the symbol. *)
Example doubles_order_an_exact_tie :
  let s := {| _nextrun := Some (Aware (clock 12 0)); _forecast := 0;
              devices := [sensor "symbol" PyNone]; data := late_morning |} in
  ordered_entries demo_host s (clock 9 30 + 3)
  = Ok [(S754_finite false 5937362786691865 (-39), entry_at_eleven);
        (S754_finite false 5937362786691866 (-39), entry_two_hours)] ∧
  SF2Prim (S754_finite false 5937362786691866 (-39))
  = (0x1.517ffffcdab1ap+13)%float ∧
  map _state (devices (self (select_stage demo_host s (clock 9 30 + 3))))
  = [PyStr "2"].
Proof. cbv zeta. repeat split; vm_compute; reflexivity. Qed.
